(** * mqtt-viewer: the relay pipeline and the ticket utilities

    A shallow embedding of [src/index.js] (the relay: broker message
    handler and republish handler), of its earlier copy
    [src/unnamed/part_000], and of [src/unnamed/part_001]
    (ticket-utils.js: [findTicketId] and [getTicketColor]).

    JavaScript numbers are IEEE-754 binary64 values: they are embedded as
    Rocq's primitive floats, which are the same format with the same
    rounding; the [depth] and [maxDepth] of [findTicketId] are such
    numbers too.  A string is held as the bytes of its UTF-8 encoding, so
    a character outside the ASCII range takes two to four of the 8-bit
    characters of a Rocq string. *)

From Stdlib Require Import List Strings.String Strings.Ascii Strings.Byte ZArith Bool Lia.
From Stdlib Require Import DecimalString.
From Stdlib Require Import Floats.PrimFloat Floats.SpecFloat Floats.FloatOps.
From Stdlib Require Import Floats.FloatAxioms.
Import ListNotations.

Set Warnings "-register-all,-inexact-float".
Local Open Scope string_scope.
Local Open Scope Z_scope.

(** ** JavaScript values *)

Module Js.

(** A structured value as [JSON.parse] builds it.  [JObject] lists the own
    enumerable properties in the order a [for (key in obj)] loop visits
    them, each key once. *)
Inductive value : Type :=
| JNull
| JBool (b : bool)
| JNumber (n : float)
| JString (s : string)
| JArray (elements : list value)
| JObject (props : list (string * value)).

(** The result of an expression that may throw. *)
Inductive exn : Type := TypeError | SyntaxError | ZlibError.

Inductive outcome (A : Type) : Type :=
| Return (a : A)
| Throw (e : exn).
Arguments Return {A} a.
Arguments Throw {A} e.

Definition bind {A B} (m : outcome A) (k : A -> outcome B) : outcome B :=
  match m with
  | Return a => k a
  | Throw e => Throw e
  end.

(** [typeof v === 'object']: true of [null], arrays and objects. *)
Definition typeof_object (v : value) : bool :=
  match v with
  | JNull | JArray _ | JObject _ => true
  | JBool _ | JNumber _ | JString _ => false
  end.

(** Own property lookup; [None] is [undefined]. *)
Fixpoint assoc (key : string) (props : list (string * value)) : option value :=
  match props with
  | [] => None
  | (k, v) :: rest => if String.eqb k key then Some v else assoc key rest
  end.

(** [o.id], for [o] a value or [undefined] ([None]): reading a property
    of [undefined] or [null] throws; arrays and primitives have no
    property of that name. *)
Definition dot_id (o : option value) : outcome (option value) :=
  match o with
  | None | Some JNull => Throw TypeError
  | Some (JObject props) => Return (assoc "id" props)
  | Some _ => Return None
  end.

(** [v[0]], for a [v] whose [typeof] is ['object'] (the only values the
    program indexes): reading it off [null] throws, an array gives its
    first element, an object its property [0]. *)
Definition index0 (v : value) : outcome (option value) :=
  match v with
  | JNull => Throw TypeError
  | JArray elements => Return (hd_error elements)
  | JObject props => Return (assoc "0" props)
  | JBool _ | JNumber _ | JString _ => Return None
  end.

(** [x != null]: neither [undefined] nor [null]. *)
Definition not_nullish (o : option value) : bool :=
  match o with
  | None | Some JNull => false
  | Some _ => true
  end.

(** [A]-[Z] to [a]-[z]; any other byte as it is. *)
Definition lower_ascii (c : ascii) : ascii :=
  let n := nat_of_ascii c in
  if ((65 <=? n) && (n <=? 90))%nat then ascii_of_nat (n + 32) else c.

(** [String.prototype.toLowerCase], on the UTF-8 bytes of the string.
    The letters [A]-[Z] become [a]-[z]; U+212A KELVIN SIGN (bytes E2 84
    AA) becomes [k]; U+0130, the capital I with a dot above (bytes C4
    B0), becomes [i] followed by U+0307 (bytes CC 87).  No other code
    point has a lower case with a character of the ASCII range in it.
    The code points outside the ASCII range other than these two are
    left as they are, where the source maps the capital letters among
    them to small letters that are outside the ASCII range as well: the
    program only compares the result with names written in ASCII, and
    that comparison comes out the same. *)
Fixpoint toLowerCase (s : string) : string :=
  match s with
  | EmptyString => EmptyString
  | String c1 r1 =>
      match r1 with
      | String c2 r2 =>
          if (Ascii.eqb c1 "196" && Ascii.eqb c2 "176")%bool then
            String "i" (String "204" (String "135" (toLowerCase r2)))
          else
            match r2 with
            | String c3 r3 =>
                if (Ascii.eqb c1 "226" && Ascii.eqb c2 "132" && Ascii.eqb c3 "170")%bool
                then String "k" (toLowerCase r3)
                else String (lower_ascii c1) (toLowerCase r1)
            | EmptyString => String (lower_ascii c1) (toLowerCase r1)
            end
      | EmptyString => String (lower_ascii c1) EmptyString
      end
  end.

(** *** Numbers *)

(** The double nearest to an integer (ties to even). *)
Definition Z_to_float (z : Z) : float :=
  SF2Prim (binary_normalize prec emax z 0 false).

(** The double nearest to [m / d], for [0 <= m] and [0 < d]: the quotient
    is taken with 64 bits to spare and the lost remainder is kept as one
    sticky bit, so the rounding to 53 bits sees the exact ratio. *)
Definition ratio_to_float (m d : Z) : float :=
  let k := 64 + Z.log2 d in
  let q := (m * 2 ^ k) / d in
  let sticky := if (m * 2 ^ k) mod d =? 0 then 0 else 1 in
  SF2Prim (binary_normalize prec emax (2 * q + sticky) (- k - 1) false).

(** The remainder operator [x % y] on numbers: exact, truncated, with
    the sign of the dividend. *)
Definition fmod (x y : float) : float :=
  match Prim2SF x, Prim2SF y with
  | S754_nan, _ | _, S754_nan => nan
  | S754_infinity _, _ => nan
  | _, S754_zero _ => nan
  | S754_zero _, _ => x
  | S754_finite _ _ _, S754_infinity _ => x
  | S754_finite sx mx ex, S754_finite _ my ey =>
      let e := Z.min ex ey in
      match Z.rem (Z.pos mx * 2 ^ (ex - e)) (Z.pos my * 2 ^ (ey - e)) with
      | Z.pos r => SF2Prim (S754_finite sx r e)
      | _ => if sx then neg_zero else zero
      end
  end.

(** *** [Number(s)] for a string [s]

    StringToNumber of ECMA-262: optional white space around a
    StrNumericLiteral, the empty literal being [0]; anything else is
    [NaN].  The value is rounded to the nearest double.

    StrWhiteSpaceChar is a WhiteSpace or a LineTerminator: TAB, LF, VT,
    FF, CR and the space in the ASCII range; U+00A0 in two bytes; and in
    three bytes U+1680, U+2000 to U+200A, U+2028, U+2029, U+202F, U+205F,
    U+3000 and U+FEFF. *)

Definition is_white (c : ascii) : bool :=
  let n := nat_of_ascii c in ((9 <=? n) && (n <=? 13) || (n =? 32))%nat.

Definition is_white2 (c1 c2 : ascii) : bool :=
  ((nat_of_ascii c1 =? 194) && (nat_of_ascii c2 =? 160))%nat.

Definition is_white3 (c1 c2 c3 : ascii) : bool :=
  let a := nat_of_ascii c1 in
  let b := nat_of_ascii c2 in
  let c := nat_of_ascii c3 in
  ((a =? 225) && (b =? 154) && (c =? 128)
   || (a =? 226) && (b =? 128)
      && ((128 <=? c) && (c <=? 138) || (c =? 168) || (c =? 169) || (c =? 175))
   || (a =? 226) && (b =? 129) && (c =? 159)
   || (a =? 227) && (b =? 128) && (c =? 128)
   || (a =? 239) && (b =? 187) && (c =? 191))%nat.

(** The string without the white space it starts with. *)
Fixpoint trim_left (s : string) : string :=
  match s with
  | EmptyString => s
  | String c1 r1 =>
      if is_white c1 then trim_left r1 else
      match r1 with
      | EmptyString => s
      | String c2 r2 =>
          if is_white2 c1 c2 then trim_left r2 else
          match r2 with
          | EmptyString => s
          | String c3 r3 => if is_white3 c1 c2 c3 then trim_left r3 else s
          end
      end
  end.

(** A string of white space only (the empty string is one). *)
Fixpoint blank (s : string) : bool :=
  match s with
  | EmptyString => true
  | String c1 r1 =>
      if is_white c1 then blank r1 else
      match r1 with
      | EmptyString => false
      | String c2 r2 =>
          if is_white2 c1 c2 then blank r2 else
          match r2 with
          | EmptyString => false
          | String c3 r3 => if is_white3 c1 c2 c3 then blank r3 else false
          end
      end
  end.

(** The string without the white space it ends with. *)
Fixpoint trim_right (s : string) : string :=
  if blank s then EmptyString else
  match s with
  | EmptyString => EmptyString
  | String c rest => String c (trim_right rest)
  end.

Definition trim (s : string) : string := trim_right (trim_left s).

Definition digit_of (base : Z) (c : ascii) : option Z :=
  let n := Z.of_nat (nat_of_ascii c) in
  let d := if (48 <=? n) && (n <=? 57) then n - 48
           else if (97 <=? n) && (n <=? 102) then n - 87
           else if (65 <=? n) && (n <=? 70) then n - 55
           else base in
  if d <? base then Some d else None.

(** The longest prefix of [s] made of digits in [base], read onto [acc]:
    its value, the number of digits read, and the rest of [s]. *)
Fixpoint digits (base : Z) (s : string) (acc count : Z) : Z * Z * string :=
  match s with
  | EmptyString => (acc, count, s)
  | String c rest =>
      match digit_of base c with
      | Some d => digits base rest (base * acc + d) (count + 1)
      | None => (acc, count, s)
      end
  end.

Definition sign_of (s : string) : bool * string :=
  match s with
  | String "+" rest => (false, rest)
  | String "-" rest => (true, rest)
  | _ => (false, s)
  end.

(** An optional ExponentPart that ends the literal. *)
Definition exponent (s : string) : option Z :=
  match s with
  | EmptyString => Some 0
  | String c rest =>
      if (Ascii.eqb c "e" || Ascii.eqb c "E")%bool then
        let '(neg, r) := sign_of rest in
        match digits 10 r 0 0 with
        | (e, count, EmptyString) =>
            if 0 <? count then Some (if neg then - e else e) else None
        | _ => None
        end
      else None
  end.

(** StrUnsignedDecimalLiteral other than [Infinity], as a mantissa and a
    power of ten. *)
Definition unsigned_decimal (s : string) : option (Z * Z) :=
  let '(int, n_int, r1) := digits 10 s 0 0 in
  let '(m, n_frac, r2) :=
    match r1 with
    | String "." r => digits 10 r int 0
    | _ => (int, 0, r1)
    end in
  if 0 <? n_int + n_frac then
    match exponent r2 with
    | Some e => Some (m, e - n_frac)
    | None => None
    end
  else None.

Definition decimal_to_float (m e : Z) : float :=
  if 0 <=? e then Z_to_float (m * 10 ^ e) else ratio_to_float m (10 ^ (- e)).

(** NonDecimalIntegerLiteral: [0x], [0o] or [0b] and digits, unsigned. *)
Definition non_decimal (s : string) : option float :=
  match s with
  | String "0" (String c rest) =>
      let base := if (Ascii.eqb c "x" || Ascii.eqb c "X")%bool then 16
                  else if (Ascii.eqb c "o" || Ascii.eqb c "O")%bool then 8
                  else if (Ascii.eqb c "b" || Ascii.eqb c "B")%bool then 2
                  else 0 in
      match digits base rest 0 0 with
      | (v, count, EmptyString) => if 0 <? count then Some (Z_to_float v) else None
      | _ => None
      end
  | _ => None
  end.

Definition StringToNumber (s : string) : float :=
  match trim s with
  | EmptyString => zero
  | t =>
      match non_decimal t with
      | Some f => f
      | None =>
          let '(neg, u) := sign_of t in
          let f := if String.eqb u "Infinity" then infinity
                   else match unsigned_decimal u with
                        | Some (m, e) => decimal_to_float m e
                        | None => nan
                        end in
          if neg then (- f)%float else f
      end
  end.

End Js.

(** ** ticket-utils.js ([src/unnamed/part_001]) *)

Module TicketUtils.
Import Js.

(** The test [typeof val === 'number' || (typeof val === 'string' &&
    !isNaN(val))] together with the [Number(val)] returned when it
    passes. *)
Definition numeric (val : value) : option float :=
  match val with
  | JNumber n => Some n
  | JString s =>
      if is_nan (StringToNumber s) then None else Some (StringToNumber s)
  | _ => None
  end.

(** What one turn of the first loop does. *)
Inductive verdict : Type :=
| Found (id : float)
| Raised (e : exn)
| Continue.

(** [if (o.id != null) { const val = o.id; if (numeric) return Number(val) }] *)
Definition id_of (o : option value) (otherwise : verdict) : verdict :=
  match dot_id o with
  | Throw e => Raised e
  | Return field =>
      if not_nullish field then
        match field with
        | Some val =>
            match numeric val with
            | Some id => Found id
            | None => otherwise
            end
        | None => otherwise
        end
      else otherwise
  end.

Definition ticketdata_pattern (lowerKey : string) (val : value) : verdict :=
  if (String.eqb lowerKey "ticketdata" && typeof_object val)%bool then
    match index0 val with
    | Throw e => Raised e
    | Return first => id_of first Continue
    end
  else Continue.

Definition ticket_pattern (lowerKey : string) (val : value) : verdict :=
  if (String.eqb lowerKey "ticket" && typeof_object val)%bool then
    id_of (Some val) (ticketdata_pattern lowerKey val)
  else ticketdata_pattern lowerKey val.

(** The body of [for (const key in obj)] at lines 22-53, [val] being
    [obj[key]]: the three patterns are tried on this key one after the
    other, and the first that matches returns. *)
Definition check_key (key : string) (val : value) : verdict :=
  let lowerKey := toLowerCase key in
  if (String.eqb lowerKey "ticketid" || String.eqb lowerKey "ticket_id")%bool then
    match numeric val with
    | Some id => Found id
    | None => ticket_pattern lowerKey val
    end
  else ticket_pattern lowerKey val.

(** The first loop, over the properties in enumeration order. *)
Fixpoint scan (entries : list (string * value)) : verdict :=
  match entries with
  | [] => Continue
  | (key, val) :: rest =>
      match check_key key val with
      | Continue => scan rest
      | stop => stop
      end
  end.

(** The properties a [for-in] loop over an array visits: its indices, in
    order, as decimal strings. *)
Fixpoint indexed_from (i : nat) (elements : list value) : list (string * value) :=
  match elements with
  | [] => []
  | x :: rest => (NilZero.string_of_uint (Nat.to_uint i), x) :: indexed_from (S i) rest
  end.

Definition indexed (elements : list value) : list (string * value) :=
  indexed_from 0 elements.

(** The second loop (lines 56-61) over the children of a node: [child]
    projects the value out of what the loop ranges over, [recurse] is
    [findTicketId] one level down. *)
Section SecondLoop.
Context {A : Type} (child : A -> value).
Variable recurse : value -> outcome (option float).

Fixpoint search (children : list A) : outcome (option float) :=
  match children with
  | [] => Return None
  | a :: rest =>
      if typeof_object (child a) then
        match recurse (child a) with
        | Return None => search rest
        | found_or_thrown => found_or_thrown
        end
      else search rest
  end.
End SecondLoop.

(** [findTicketId(obj, depth, maxDepth)]; the source's defaults are
    [depth = 0] and [maxDepth = 10].  [depth] and [maxDepth] are
    numbers: [depth > maxDepth] is the comparison of doubles (false when
    either is [NaN]) and [depth + 1] their addition, which is exact up
    to 2^53 and rounds from there on.  [Return None] is the source's
    [null].  The [console.log] before the last [return null] is left
    out. *)
Fixpoint findTicketId (obj : value) (depth maxDepth : float) {struct obj}
  : outcome (option float) :=
  if (maxDepth <? depth)%float then Return None else
  match obj with
  | JNull => Return None
  | JBool _ | JNumber _ | JString _ => Return None
  | JArray elements =>
      match scan (indexed elements) with
      | Found id => Return (Some id)
      | Raised e => Throw e
      | Continue =>
          search (fun x => x)
                 (fun c => findTicketId c (depth + 1)%float maxDepth) elements
      end
  | JObject props =>
      match scan props with
      | Found id => Return (Some id)
      | Raised e => Throw e
      | Continue =>
          search snd (fun c => findTicketId c (depth + 1)%float maxDepth) props
      end
  end.

Definition golden : float := 0.618033988749895%float.

(** The color [getTicketColor] returns: the fixed hexadecimal string, or
    the three numbers the template literal
    [hsl(${hue}, ${saturation}%, ${lightness}%)] prints. *)
Inductive color : Type :=
| Hex (code : string)
| Hsl (hue saturation lightness : float).

(** [getTicketColor(ticketId)]; [None] is a [null] or [undefined] id. *)
Definition getTicketColor (ticketId : option float) : color :=
  match ticketId with
  | None => Hex "#6b7280"
  | Some id =>
      let hue := fmod (id * golden * 360) 360 in
      let saturation := (65 + fmod id 20)%float in
      let lightness := (45 + fmod id 15)%float in
      Hsl hue saturation lightness
  end.

End TicketUtils.

(** ** The relay ([src/index.js] and its earlier copy [src/unnamed/part_000]) *)

Module Relay.
Import Js.

(** What the relay takes from Node and its libraries: [zlib.gunzipSync]
    and [JSON.parse] ([None] when they throw), [Buffer.toString("utf8")]
    and [JSON.stringify]. *)
Record runtime : Type := {
  gunzipSync : list byte -> option (list byte);
  toString_utf8 : list byte -> string;
  JSON_parse : string -> option value;
  JSON_stringify : value -> string
}.

(** The readings of the clock one call of the message handler takes:
    [Date.now()] and the two [new Date().toISOString()]. *)
Record clock : Type := {
  Date_now : float;
  iso_logged : string;
  iso_event : string
}.

(** One call of [console.log] or [console.error], by the line it prints. *)
Inductive logline : Type :=
| Rule                              (* a line of box-drawing dashes *)
| RuleNewline                       (* the same, followed by a newline *)
| MessageReceived                   (* the "Message Received" banner *)
| TopicLine (topic : string)        (* `Topic: ${topic}` *)
| TimeLine (iso : string)           (* `Time: ${new Date().toISOString()}` *)
| SizeLine (bytes : nat)            (* `Size: ${message.length} bytes` *)
| RepublishFailed (message : string) (* console.error, with err.message *)
| Republished (topic : value).      (* `Republished to topic: ${topic}` *)

(** What a handler does to the outside, in order. *)
Inductive effect : Type :=
| Console (line : logline)
| Broadcast (event : string) (payload : value)   (* io.emit: every viewer *)
| Reply (event : string) (payload : value)       (* socket.emit: this viewer *)
| Publish (topic : value) (message : string).    (* client.publish *)

(** How [client.publish(topic, message, options, callback)] ends: the
    callback runs without an error, or with one, or the call throws. *)
Inductive publish_result : Type :=
| Acked
| Failed (message : string)
| Thrown (message : string).

Definition byte_is (b : option byte) (expected : byte) : bool :=
  match b with
  | Some x => Byte.eqb x expected
  | None => false
  end.

(** JavaScript truthiness of a value. *)
Definition truthy (v : value) : bool :=
  match v with
  | JNull => false
  | JBool b => b
  | JNumber n => negb (PrimFloat.is_zero n || is_nan n)
  | JString s => negb (String.eqb s "")
  | JArray _ | JObject _ => true
  end.

(** A destructured field when it is truthy; [None] for a falsy or
    missing one. *)
Definition if_truthy (o : option value) : option value :=
  match o with
  | Some v => if truthy v then Some v else None
  | None => None
  end.

(** [arg.key] as destructuring reads it off a non-null argument. *)
Definition field (arg : value) (key : string) : option value :=
  match arg with
  | JObject props => assoc key props
  | _ => None
  end.

(** The names of an object's properties, in order. *)
Definition keys (v : value) : list string :=
  match v with
  | JObject props => map fst props
  | _ => []
  end.

(** What a run of effects shows to each party: the payloads broadcast to
    every viewer, those sent to the requesting viewer, the publishes
    handed to the broker, and the lines printed. *)
Definition broadcasts (trace : list effect) : list value :=
  flat_map (fun e => match e with Broadcast _ payload => [payload] | _ => [] end) trace.

Definition replies (trace : list effect) : list (string * value) :=
  flat_map (fun e => match e with Reply event payload => [(event, payload)] | _ => [] end) trace.

Definition publishes (trace : list effect) : list (value * string) :=
  flat_map (fun e => match e with Publish topic message => [(topic, message)] | _ => [] end) trace.

Definition printed (trace : list effect) : list logline :=
  flat_map (fun e => match e with Console line => [line] | _ => [] end) trace.


(** [JSON.parse(text)], which throws a [SyntaxError] on malformed text. *)
Definition parse (rt : runtime) (text : string) : outcome value :=
  match JSON_parse rt text with
  | Some parsed => Return parsed
  | None => Throw SyntaxError
  end.

Module IndexJs.

Definition isGzip (message : list byte) : bool :=
  ((2 <=? List.length message)%nat
   && byte_is (nth_error message 0) x1f
   && byte_is (nth_error message 1) x8b)%bool.

(** Lines 134-140. *)
Definition jsonString (rt : runtime) (message : list byte) : outcome string :=
  if isGzip message then
    match gunzipSync rt message with
    | Some inflated => Return (toString_utf8 rt inflated)
    | None => Throw ZlibError
    end
  else Return (toString_utf8 rt message).

(** Line 142: [data], the structured value of the message. *)
Definition data (rt : runtime) (message : list byte) : outcome value :=
  bind (jsonString rt message) (parse rt).

(** The object literal of lines 151-159. *)
Definition mqtt_event (c : clock) (topic : string) (message : list byte)
  (text : string) (parsed : value) : value :=
  JObject [("id", JNumber (Date_now c));
           ("topic", JString topic);
           ("size", JNumber (Z_to_float (Z.of_nat (List.length message))));
           ("isCompressed", JBool (isGzip message));
           ("time", JString (iso_event c));
           ("raw", JString text);
           ("parsed", parsed)].

(** [client.on("message", (topic, message) => ...)], lines 130-160: the
    effects of one call and how it ends.  The handler has no [try]: what
    [gunzipSync] or [JSON.parse] throws leaves it. *)
Definition on_message (rt : runtime) (c : clock) (topic : string)
  (message : list byte) : list effect * outcome unit :=
  match jsonString rt message with
  | Throw e => ([], Throw e)
  | Return text =>
      match JSON_parse rt text with
      | None => ([], Throw SyntaxError)
      | Some parsed =>
          ([Console Rule; Console MessageReceived; Console (TopicLine topic);
            Console (TimeLine (iso_logged c));
            Console (SizeLine (List.length message)); Console RuleNewline;
            Broadcast "mqtt-event" (mqtt_event c topic message text parsed)],
           Return tt)
      end
  end.

Definition result_invalid : value :=
  JObject [("success", JBool false); ("error", JString "Invalid topic or payload")].

Definition result_error (message : string) : value :=
  JObject [("success", JBool false); ("error", JString message)].

Definition result_success (topic : value) : value :=
  JObject [("success", JBool true); ("topic", topic)].

(** Lines 175-176: a string payload goes out as it is, anything else
    through [JSON.stringify]. *)
Definition wire_message (rt : runtime) (payload : value) : string :=
  match payload with
  | JString s => s
  | _ => JSON_stringify rt payload
  end.

(** [socket.on("republish-mqtt", ({ topic, payload }) => ...)], lines
    165-199.  [arg] is what the viewer sent; destructuring it happens
    before the [try], and throws on [null]. *)
Definition on_republish (rt : runtime)
  (publish : value -> string -> publish_result) (arg : value)
  : list effect * outcome unit :=
  match arg with
  | JNull => ([], Throw TypeError)
  | _ =>
      match if_truthy (field arg "topic"), if_truthy (field arg "payload") with
      | Some topic, Some payload =>
          let message := wire_message rt payload in
          match publish topic message with
          | Acked =>
              ([Publish topic message; Console (Republished topic);
                Reply "republish-result" (result_success topic)], Return tt)
          | Failed reason =>
              ([Publish topic message; Console (RepublishFailed reason);
                Reply "republish-result" (result_error reason)], Return tt)
          | Thrown reason =>
              ([Publish topic message;
                Reply "republish-result" (result_error reason)], Return tt)
          end
      | _, _ => ([Reply "republish-result" result_invalid], Return tt)
      end
  end.

(** The handler as the socket calls it: with what the viewer sent along
    with the event, or, when the viewer sent the event alone, with no
    argument ([None]), so that the parameter is [undefined].
    Destructuring [undefined] throws as destructuring [null] does. *)
Definition on_republish_call (rt : runtime)
  (publish : value -> string -> publish_result) (arg : option value)
  : list effect * outcome unit :=
  match arg with
  | None => ([], Throw TypeError)
  | Some sent => on_republish rt publish sent
  end.

End IndexJs.

Module Part000.

Definition isGzip (message : list byte) : bool :=
  ((2 <=? List.length message)%nat
   && byte_is (nth_error message 0) x1f
   && byte_is (nth_error message 1) x8b)%bool.

(** Lines 128-136. *)
Definition jsonString (rt : runtime) (message : list byte) : outcome string :=
  if isGzip message then
    match gunzipSync rt message with
    | Some inflated => Return (toString_utf8 rt inflated)
    | None => Throw ZlibError
    end
  else Return (toString_utf8 rt message).

(** Line 138. *)
Definition data (rt : runtime) (message : list byte) : outcome value :=
  bind (jsonString rt message) (parse rt).

(** The object literal of lines 153-161. *)
Definition mqtt_event (c : clock) (topic : string) (message : list byte)
  (text : string) (parsed : value) : value :=
  JObject [("id", JNumber (Date_now c));
           ("topic", JString topic);
           ("size", JNumber (Z_to_float (Z.of_nat (List.length message))));
           ("isCompressed", JBool (isGzip message));
           ("time", JString (iso_event c));
           ("raw", JString text);
           ("parsed", parsed)].

(** [client.on("message", ...)], lines 122-162: as in [index.js], with
    one more rule printed before the broadcast. *)
Definition on_message (rt : runtime) (c : clock) (topic : string)
  (message : list byte) : list effect * outcome unit :=
  match jsonString rt message with
  | Throw e => ([], Throw e)
  | Return text =>
      match JSON_parse rt text with
      | None => ([], Throw SyntaxError)
      | Some parsed =>
          ([Console Rule; Console MessageReceived; Console (TopicLine topic);
            Console (TimeLine (iso_logged c));
            Console (SizeLine (List.length message)); Console RuleNewline;
            Console RuleNewline;
            Broadcast "mqtt-event" (mqtt_event c topic message text parsed)],
           Return tt)
      end
  end.

End Part000.

End Relay.

(** ** Shapes of structured values the statements below speak about *)

Module Shape.
Import Js TicketUtils.

(** Induction over a value that reaches the elements of an array and the
    property values of an object. *)
Section ValueInduction.
Variable P : value -> Prop.
Hypothesis P_null : P JNull.
Hypothesis P_bool : forall b, P (JBool b).
Hypothesis P_number : forall n, P (JNumber n).
Hypothesis P_string : forall s, P (JString s).
Hypothesis P_array : forall elements, Forall P elements -> P (JArray elements).
Hypothesis P_object :
  forall props, Forall (fun kv => P (snd kv)) props -> P (JObject props).

Fixpoint value_induction (v : value) : P v :=
  match v with
  | JNull => P_null
  | JBool b => P_bool b
  | JNumber n => P_number n
  | JString s => P_string s
  | JArray elements =>
      P_array elements
        ((fix all (l : list value) : Forall P l :=
            match l with
            | [] => Forall_nil P
            | x :: rest => Forall_cons x (value_induction x) (all rest)
            end) elements)
  | JObject props =>
      P_object props
        ((fix all (l : list (string * value)) : Forall (fun kv => P (snd kv)) l :=
            match l with
            | [] => Forall_nil _
            | kv :: rest => Forall_cons kv (value_induction (snd kv)) (all rest)
            end) props)
  end.
End ValueInduction.

(** A key the first pattern reads: [ticketId] or [ticket_id], in any case. *)
Definition is_direct (key : string) : bool :=
  (String.eqb (toLowerCase key) "ticketid"
   || String.eqb (toLowerCase key) "ticket_id")%bool.

(** A key one of the three patterns reads. *)
Definition ticketish (key : string) : bool :=
  (is_direct key
   || String.eqb (toLowerCase key) "ticket"
   || String.eqb (toLowerCase key) "ticketdata")%bool.

(** No key anywhere in the value is one a pattern reads. *)
Fixpoint plain (v : value) : bool :=
  match v with
  | JArray elements => forallb plain elements
  | JObject props =>
      forallb (fun kv => negb (ticketish (fst kv)) && plain (snd kv))%bool props
  | _ => true
  end.

(** The turn of the first loop on this property neither returns nor
    throws. *)
Definition passes (kv : string * value) : Prop :=
  check_key (fst kv) (snd kv) = Continue.

(** What a pattern reads [id] off: a direct key with a numeric value, a
    [ticket] key whose object has a numeric [id], or a [ticketdata] key
    whose first element has a numeric [id]. *)
Definition Recognized (id : float) (key : string) (val : value) : Prop :=
  (is_direct key = true /\ numeric val = Some id)
  \/ (toLowerCase key = "ticket" /\
      exists inner, dot_id (Some val) = Return (Some inner) /\ numeric inner = Some id)
  \/ (toLowerCase key = "ticketdata" /\
      exists first inner,
        index0 val = Return (Some first) /\
        dot_id (Some first) = Return (Some inner) /\ numeric inner = Some id).

(** The value of [depth] in the call [d] levels below a call that has
    [depth]: every level adds 1, in double precision. *)
Fixpoint level (depth : float) (d : nat) : float :=
  match d with
  | O => depth
  | S d' => level (depth + 1)%float d'
  end.

(** The hue [getTicketColor] computes for a present id, the hue of id 1
    (the golden-ratio step, 222.49... degrees), and how far the hues of
    [id] and [id + 1] are from differing by that step modulo 360, in
    degrees. *)
Definition hue_of_id (id : float) : float := fmod (id * golden * 360) 360.

Definition golden_step : float := hue_of_id 1.

Definition step_deviation (id : float) : float :=
  let d := fmod (hue_of_id (id + 1) - hue_of_id id - golden_step + 720) 360 in
  if (d <? 180)%float then d else (360 - d)%float.

(** [check] holds of the [count] integers from [z] on. *)
Fixpoint all_from (check : Z -> bool) (count : nat) (z : Z) : bool :=
  match count with
  | O => true
  | S c => (check z && all_from check c (z + 1))%bool
  end.

End Shape.

(** ** A fragment of the runtime, for the examples

    The real [gunzipSync], [JSON.parse] and [JSON.stringify] on the few
    inputs the examples use; on any other input the table answers as on
    a malformed one. *)

Module Demo.
Import Js Relay.

(** The text [{"ticket":{"id":42}}] in UTF-8. *)
Definition text42_bytes : list byte :=
  [x7b; x22; x74; x69; x63; x6b; x65; x74; x22; x3a; x7b; x22; x69; x64;
   x22; x3a; x34; x32; x7d; x7d].

(** The same text compressed by gzip (deflate, no file name, mtime 0). *)
Definition gzip42 : list byte :=
  [x1f; x8b; x08; x00; x00; x00; x00; x00; x00; xff; xab; x56; x2a; xc9;
   x4c; xce; x4e; x2d; x51; xb2; xaa; x56; xca; x4c; x51; xb2; x32; x31;
   xaa; xad; x05; x00; x70; x97; xfc; xef; x14; x00; x00; x00].

(** A gzip header with nothing after it. *)
Definition truncated_gzip : list byte := [x1f; x8b; x08].

(** The text [{bad] in UTF-8: not JSON. *)
Definition malformed_bytes : list byte := [x7b; x62; x61; x64].

Definition text42 : string := string_of_list_byte text42_bytes.

(** U+212A KELVIN SIGN and U+00A0 NO-BREAK SPACE as strings, that is,
    in UTF-8. *)
Definition kelvin : string :=
  String "226" (String "132" (String "170" EmptyString)).

Definition no_break_space : string := String "194" (String "160" EmptyString).

Definition ticket42 : value :=
  JObject [("ticket", JObject [("id", JNumber 42)])].

Fixpoint bytes_eqb (a b : list byte) : bool :=
  match a, b with
  | [], [] => true
  | x :: a', y :: b' => (Byte.eqb x y && bytes_eqb a' b')%bool
  | _, _ => false
  end.

Definition runtime : Relay.runtime := {|
  gunzipSync m := if bytes_eqb m gzip42 then Some text42_bytes else None;
  toString_utf8 := string_of_list_byte;
  JSON_parse s := if String.eqb s text42 then Some ticket42 else None;
  JSON_stringify v := match v with
                      | JBool true => "true"
                      | JBool false => "false"
                      | JArray [] => "[]"
                      | JObject [] => "{}"
                      | _ => "null"
                      end
|}.

Definition clock : Relay.clock := {|
  Date_now := 1793606400001;
  iso_logged := "2026-11-02T08:00:00.000Z";
  iso_event := "2026-11-02T08:00:00.001Z"
|}.

(** A broker that accepts every publish, and one that refuses each with
    the same reason. *)
Definition accepting (topic : value) (message : string) : publish_result := Acked.

End Demo.

(** ** More shapes: what the traversal reads, and what makes it throw *)

Module Traversal.
Import Js TicketUtils Shape.

(** A value whose [[0]] is missing or [null], so that [v[0].id] throws:
    [null] itself, an empty array, an array that starts with [null], an
    object with no property [0] or with a [null] one. *)
Definition missing_first (v : value) : bool :=
  match v with
  | JNull => true
  | JArray [] => true
  | JArray (JNull :: _) => true
  | JObject props =>
      match assoc "0" props with
      | None | Some JNull => true
      | Some _ => false
      end
  | _ => false
  end.

Definition is_null (v : value) : bool :=
  match v with
  | JNull => true
  | _ => false
  end.

(** A property on which the first loop throws: a [ticket] key that
    holds [null], or a [ticketdata] key whose value has no usable first
    element. *)
Definition risky (key : string) (val : value) : bool :=
  (String.eqb (toLowerCase key) "ticket" && is_null val
   || String.eqb (toLowerCase key) "ticketdata" && missing_first val)%bool.

(** No property anywhere in the value is a risky one. *)
Fixpoint harmless (v : value) : bool :=
  match v with
  | JArray elements => forallb harmless elements
  | JObject props =>
      forallb (fun kv => negb (risky (fst kv) (snd kv)) && harmless (snd kv))%bool
              props
  | _ => true
  end.

(** [Holds id v]: some mapping inside [v] (or [v] itself) has a property
    a pattern reads [id] off. *)
Inductive Holds (id : float) : value -> Prop :=
| holds_here props key val :
    In (key, val) props -> Recognized id key val -> Holds id (JObject props)
| holds_in_object props key child :
    In (key, child) props -> Holds id child -> Holds id (JObject props)
| holds_in_array elements child :
    In child elements -> Holds id child -> Holds id (JArray elements).

(** A property on which a turn of the first loop has nothing to return
    and nothing to throw: no pattern reads an id off it, and it is not a
    risky one. *)
Definition quiet (kv : string * value) : Prop :=
  risky (fst kv) (snd kv) = false /\ forall id, ~ Recognized id (fst kv) (snd kv).

(** A value that holds nothing for the search: no property, at any
    level, that a pattern reads an id off, and no risky one. *)
Definition barren (v : value) : Prop :=
  harmless v = true /\ forall id, ~ Holds id v.

(** [FieldAt id d v]: the ticket field of [v] is a property of a mapping
    [d] levels below the root [v] (the root's own properties are at
    level 0), and a pattern reads [id] off it.  The properties before it
    in its mapping are quiet; on the way down, the property that leads
    to it is quiet, and what lies beside the way, before and after, is
    barren.  The level is that of the mapping whose key matches: for the
    [ticket] and [ticketdata] patterns it is the level of the mapping
    that holds the [ticket] or [ticketdata] key, whose [id] the same
    turn of the loop reads. *)
Inductive FieldAt (id : float) : nat -> value -> Prop :=
| field_here pre key val post :
    Forall quiet pre ->
    Recognized id key val ->
    FieldAt id 0 (JObject (pre ++ (key, val) :: post))
| field_in_object pre key child post d :
    barren (JObject pre) ->
    barren (JObject post) ->
    quiet (key, child) ->
    FieldAt id d child ->
    FieldAt id (S d) (JObject (pre ++ (key, child) :: post))
| field_in_array pre child post d :
    barren (JArray pre) ->
    barren (JArray post) ->
    FieldAt id d child ->
    FieldAt id (S d) (JArray (pre ++ child :: post)).

(** Whether, for all levels [j] and all integer bounds [m] up to [n],
    the guard of a search that starts at depth 0 compares the count at
    level [j] with the bound [m] as the integers [j] and [m] compare. *)
Definition counts_like_integers (n : nat) : bool :=
  forallb (fun j =>
             forallb (fun m =>
                        Bool.eqb (Z_to_float (Z.of_nat m) <? level 0 j)%float
                                 (m <? j)%nat)
                     (seq 0 (S n)))
          (seq 0 (S n)).

(** [v] wrapped in one mapping per key, the first key outermost. *)
Fixpoint enveloped (keys : list string) (v : value) : value :=
  match keys with
  | [] => v
  | key :: inner => JObject [(key, enveloped inner v)]
  end.

(** [v] with every key of every mapping renamed by [f]. *)
Fixpoint rekey (f : string -> string) (v : value) : value :=
  match v with
  | JArray elements => JArray (map (rekey f) elements)
  | JObject props => JObject (map (fun kv => (f (fst kv), rekey f (snd kv))) props)
  | _ => v
  end.


(** The integers from [z] on, [count] of them. *)
Fixpoint range (count : nat) (z : Z) : list Z :=
  match count with
  | O => []
  | S c => z :: range c (z + 1)
  end.

(** Two hues at least 0.16 degrees apart on the color circle. *)
Definition apart (x y : float) : bool :=
  let d := abs (x - y) in
  (PrimFloat.leb 0.16 d && PrimFloat.leb d 359.84)%bool.

(** Every number of the list is [apart] from every later one. *)
Fixpoint separated (l : list float) : bool :=
  match l with
  | [] => true
  | x :: rest => (forallb (apart x) rest && separated rest)%bool
  end.

(** The color of a non-negative integer id as the source's comments
    describe it: a hue in [0, 360), the saturation [65 + id mod 20] and
    the lightness [45 + id mod 15]. *)
Definition in_bands (z : Z) : bool :=
  match getTicketColor (Some (Z_to_float z)) with
  | Hsl h s l =>
      (PrimFloat.leb 0 h && PrimFloat.ltb h 360
       && PrimFloat.eqb s (Z_to_float (65 + z mod 20))
       && PrimFloat.eqb l (Z_to_float (45 + z mod 15)))%bool
  | Hex _ => false
  end.

(** The color of the negative integer [- z]: the remainders keep the
    sign of the id, so the hue is in (-360, 0], the saturation is
    [65 - z mod 20] and the lightness [45 - z mod 15]. *)
Definition in_mirrored_bands (z : Z) : bool :=
  match getTicketColor (Some (Z_to_float (- z))) with
  | Hsl h s l =>
      (PrimFloat.ltb (-360) h && PrimFloat.leb h 0
       && PrimFloat.eqb s (Z_to_float (65 - z mod 20))
       && PrimFloat.eqb l (Z_to_float (45 - z mod 15)))%bool
  | Hex _ => false
  end.

End Traversal.

(** ** The static file server ([src/index.js] lines 23-39, [src/unnamed/part_000] lines 22-26) *)

Module Http.

(** What the request listener does to the response, in order:
    [res.writeHead(status, {"Content-Type": type})], a file of the
    script's own directory streamed into the response
    ([fs.createReadStream(path.join(__dirname, name)).pipe(res)]), and
    [res.end(body)]. *)
Inductive step : Type :=
| WriteHead (status : Z) (content_type : string)
| PipeFile (name : string)
| End_ (body : string).

Module IndexJs.

(** The listener given to [http.createServer]; only [req.url] is read. *)
Definition request_listener (url : string) : list step :=
  if String.eqb url "/" then
    [WriteHead 200 "text/html"; PipeFile "index.html"]
  else if String.eqb url "/ticket-utils.js" then
    [WriteHead 200 "application/javascript"; PipeFile "ticket-utils.js"]
  else
    [WriteHead 404 "text/plain"; End_ "Not Found"].

End IndexJs.

Module Part000.

(** The earlier listener: one branch, no head, no [else]. *)
Definition request_listener (url : string) : list step :=
  if String.eqb url "/" then [PipeFile "index.html"] else [].

End Part000.

End Http.

(** ** Loading the certificates and connecting ([src/index.js] lines 49-102) *)

Module Startup.

(** What the script takes from its surroundings: the environment
    variable [MQTT_HOST] ([None] when unset), the digits
    [Math.random().toString(16).slice(3)] gives, [path.resolve], and
    [fs.readFileSync], which returns the bytes of a file or throws an
    error with a message. *)
Record surroundings : Type := {
  MQTT_HOST : option string;
  random_digits : string;
  resolve : string -> string;
  readFileSync : string -> string + list byte
}.

(** The argument of [mqtt.connect]: the listed options and, spread over
    them, [tlsOptions]. [username] and [password] are read off [config],
    which has neither. *)
Record connect_options : Type := {
  host : option string;
  port : Z;
  protocol : string;
  clientId : string;
  clean : bool;
  connectTimeout : Z;
  username : option string;
  password : option string;
  reconnectPeriod : Z;
  ca : list byte;
  cert : list byte;
  key : list byte;
  rejectUnauthorized : bool
}.

Inductive step : Type :=
| Read (path : string)                    (* fs.readFileSync(path) is called *)
| Loaded                                  (* "Certificates loaded successfully" *)
| LoadFailed (message : string) (ca_path cert_path key_path : string)
                                          (* the console.error lines of the catch *)
| Exit (code : Z)                         (* process.exit(code) *)
| Connect (options : connect_options).    (* mqtt.connect(options) *)

Definition ca_path : string := "./certs/aio_root_ca.crt".
Definition cert_path : string := "./certs/aio_private_cert.pem".
Definition key_path : string := "./certs/aio_private_key.key".

Definition options (s : surroundings) (ca cert key : list byte) : connect_options := {|
  host := MQTT_HOST s;
  port := 8883;
  protocol := "mqtts";
  clientId := "mqtt_logger_" ++ random_digits s;
  clean := true;
  connectTimeout := 4000;
  username := None;
  password := None;
  reconnectPeriod := 1000;
  ca := ca;
  cert := cert;
  key := key;
  rejectUnauthorized := true
|}.

Definition failed (message : string) : list step :=
  [LoadFailed message ca_path cert_path key_path; Exit 1].

(** Lines 69-102: the three files are read in the order the object
    literal lists them; the first read that throws ends the [try], the
    [catch] prints and exits, and [mqtt.connect] is reached only past
    the [try]. *)
Definition load_and_connect (s : surroundings) : list step :=
  match readFileSync s (resolve s ca_path) with
  | inl message => Read (resolve s ca_path) :: failed message
  | inr ca =>
      match readFileSync s (resolve s cert_path) with
      | inl message =>
          Read (resolve s ca_path) :: Read (resolve s cert_path) :: failed message
      | inr cert =>
          match readFileSync s (resolve s key_path) with
          | inl message =>
              Read (resolve s ca_path) :: Read (resolve s cert_path)
              :: Read (resolve s key_path) :: failed message
          | inr key =>
              [Read (resolve s ca_path); Read (resolve s cert_path);
               Read (resolve s key_path); Loaded; Connect (options s ca cert key)]
          end
      end
  end.

(** [fs.readFileSync] returns on this configured path. *)
Definition readable (s : surroundings) (path : string) : bool :=
  match readFileSync s (resolve s path) with
  | inr _ => true
  | inl _ => false
  end.

(** The reads, the connects and the exits of a run. *)
Definition reads (trace : list step) : list string :=
  flat_map (fun e => match e with Read path => [path] | _ => [] end) trace.

Definition connects (trace : list step) : list connect_options :=
  flat_map (fun e => match e with Connect o => [o] | _ => [] end) trace.

Definition exits (trace : list step) : list Z :=
  flat_map (fun e => match e with Exit code => [code] | _ => [] end) trace.

End Startup.

(** * Properties *)

Import Js TicketUtils Shape Relay Traversal.

(** ** Numbers and strings *)

Lemma SF_le_lt_trans (a b c : spec_float) :
  SFleb a b = true -> SFltb b c = true -> SFltb a c = true.
Proof.
  unfold SFleb, SFltb, SFcompare.
  destruct a as [sa|sa| |sa ma ea], b as [sb|sb| |sb mb eb], c as [sc|sc| |sc mc ec];
    try discriminate; try reflexivity;
    repeat match goal with s : bool |- _ => destruct s end;
    try discriminate; try reflexivity;
    change (Pos.compare_cont Eq) with Pos.compare;
    destruct (Z.compare_spec ea eb), (Z.compare_spec eb ec), (Z.compare_spec ea ec);
    destruct (Pos.compare_spec ma mb), (Pos.compare_spec mb mc), (Pos.compare_spec ma mc);
    simpl; try discriminate; try reflexivity; lia.
Qed.

(** The order of numbers is transitive: what exceeds a bound exceeds
    every smaller one. *)
Lemma leb_ltb_trans (a b c : float) :
  (a <=? b)%float = true -> (b <? c)%float = true -> (a <? c)%float = true.
Proof. rewrite leb_spec, !ltb_spec. apply SF_le_lt_trans. Qed.






Lemma trim_left_blank_upto (n : nat) (s : string) :
  (String.length s <= n)%nat -> blank s = true -> trim_left s = "".
Proof.
  revert s. induction n as [|n IH]; intros s Hlen.
  - destruct s; [reflexivity | simpl in Hlen; lia].
  - destruct s as [|c1 r1]; [reflexivity|]. cbn [blank trim_left].
    simpl in Hlen. destruct (is_white c1).
    + apply IH. lia.
    + destruct r1 as [|c2 r2]; [discriminate|].
      simpl in Hlen. destruct (is_white2 c1 c2).
      * apply IH. lia.
      * destruct r2 as [|c3 r3]; [discriminate|].
        simpl in Hlen. destruct (is_white3 c1 c2 c3); [|discriminate].
        apply IH. lia.
Qed.

Lemma trim_left_blank (s : string) : blank s = true -> trim_left s = "".
Proof. apply (trim_left_blank_upto (String.length s)). lia. Qed.

(** ** The first loop of [findTicketId] *)

Lemma findTicketId_unfold (obj : value) (depth maxDepth : float) :
  findTicketId obj depth maxDepth =
  if (maxDepth <? depth)%float then Return None else
  match obj with
  | JArray elements =>
      match scan (indexed elements) with
      | Found id => Return (Some id)
      | Raised e => Throw e
      | Continue =>
          search (fun x => x) (fun c => findTicketId c (depth + 1)%float maxDepth) elements
      end
  | JObject props =>
      match scan props with
      | Found id => Return (Some id)
      | Raised e => Throw e
      | Continue =>
          search snd (fun c => findTicketId c (depth + 1)%float maxDepth) props
      end
  | _ => Return None
  end.
Proof. destruct obj; reflexivity. Qed.

Lemma findTicketId_beyond (obj : value) (depth maxDepth : float) :
  (maxDepth <? depth)%float = true -> findTicketId obj depth maxDepth = Return None.
Proof. intros Hcut. rewrite findTicketId_unfold, Hcut. reflexivity. Qed.

(** What is not an object gives [null], at any depth. *)
Lemma findTicketId_primitive (obj : value) (depth maxDepth : float) :
  typeof_object obj = false -> findTicketId obj depth maxDepth = Return None.
Proof.
  intros H. rewrite findTicketId_unfold.
  destruct obj; try discriminate; destruct (maxDepth <? depth)%float; reflexivity.
Qed.

Lemma not_ticketish_parts (key : string) :
  ticketish key = false ->
  String.eqb (toLowerCase key) "ticketid" = false /\
  String.eqb (toLowerCase key) "ticket_id" = false /\
  String.eqb (toLowerCase key) "ticket" = false /\
  String.eqb (toLowerCase key) "ticketdata" = false.
Proof.
  unfold ticketish, is_direct. intros H.
  repeat (apply orb_false_iff in H; destruct H as [H ?]).
  repeat split; assumption.
Qed.

Lemma check_key_other (key : string) (val : value) :
  ticketish key = false -> check_key key val = Continue.
Proof.
  intros H. destruct (not_ticketish_parts key H) as (H1 & H2 & H3 & H4).
  unfold check_key, ticket_pattern, ticketdata_pattern.
  rewrite H1, H2, H3, H4. reflexivity.
Qed.

Lemma index_key_other (u : Decimal.uint) :
  ticketish (NilZero.string_of_uint u) = false.
Proof.
  destruct u; cbn [NilZero.string_of_uint NilEmpty.string_of_uint];
    try reflexivity;
    match goal with |- context [String _ ?rest] => generalize rest end;
    intros [|c2 [|c3 r3]]; reflexivity.
Qed.

Lemma scan_indexed (elements : list value) (i : nat) :
  scan (indexed_from i elements) = Continue.
Proof.
  revert i. induction elements as [|x rest IH]; intros i; simpl.
  - reflexivity.
  - rewrite check_key_other by apply index_key_other. apply IH.
Qed.

Lemma scan_skip (pre rest : list (string * value)) :
  Forall passes pre -> scan (pre ++ rest) = scan rest.
Proof.
  induction 1 as [|[k v] pre Hkv _ IH]; simpl.
  - reflexivity.
  - unfold passes in Hkv. simpl in Hkv. rewrite Hkv. exact IH.
Qed.

Lemma scan_first_match (pre post : list (string * value)) key val id :
  Forall passes pre -> check_key key val = Found id ->
  scan (pre ++ (key, val) :: post) = Found id.
Proof.
  intros Hpre Hkey. rewrite scan_skip by assumption. simpl. rewrite Hkey.
  reflexivity.
Qed.

Lemma scan_first_throw (pre post : list (string * value)) key val e :
  Forall passes pre -> check_key key val = Raised e ->
  scan (pre ++ (key, val) :: post) = Raised e.
Proof.
  intros Hpre Hkey. rewrite scan_skip by assumption. simpl. rewrite Hkey.
  reflexivity.
Qed.

Lemma plain_props_pass (props : list (string * value)) :
  plain (JObject props) = true -> Forall passes props.
Proof.
  simpl. intros H. apply Forall_forall. intros [k v] Hin.
  rewrite forallb_forall in H. specialize (H _ Hin). simpl in H.
  apply andb_true_iff in H. destruct H as [Hk _].
  apply negb_true_iff in Hk. apply check_key_other. exact Hk.
Qed.

Lemma scan_plain (props : list (string * value)) :
  plain (JObject props) = true -> scan props = Continue.
Proof.
  intros H. rewrite <- (app_nil_r props).
  rewrite scan_skip by (apply plain_props_pass; exact H). reflexivity.
Qed.

(** ** The second loop *)

Section SearchFacts.
Context {A : Type} (child : A -> value).
Variable recurse : value -> outcome (option float).

Lemma search_skip (pre rest : list A) :
  Forall (fun a => recurse (child a) = Return None) pre ->
  search child recurse (pre ++ rest) = search child recurse rest.
Proof.
  induction 1 as [|a pre Ha _ IH]; simpl.
  - reflexivity.
  - rewrite Ha, IH. destruct (typeof_object (child a)); reflexivity.
Qed.

Lemma search_barren (l : list A) :
  Forall (fun a => recurse (child a) = Return None) l ->
  search child recurse l = Return None.
Proof.
  intros H. rewrite <- (app_nil_r l). rewrite search_skip by exact H.
  reflexivity.
Qed.

Lemma search_reaches (pre post : list A) (a : A) :
  Forall (fun a => recurse (child a) = Return None) pre ->
  typeof_object (child a) = true ->
  search child recurse (pre ++ a :: post) =
  match recurse (child a) with
  | Return None => search child recurse post
  | found_or_thrown => found_or_thrown
  end.
Proof.
  intros Hpre Hobj. rewrite search_skip by exact Hpre. simpl.
  rewrite Hobj. reflexivity.
Qed.
End SearchFacts.

(** A value with no ticket key anywhere yields [null], whatever the
    depth it is searched at, and never throws. *)
Lemma plain_not_found (v : value) :
  plain v = true ->
  forall depth maxDepth, findTicketId v depth maxDepth = Return None.
Proof.
  induction v as [ | b | n | s | elements IH | props IH ] using value_induction;
    intros Hplain depth maxDepth; rewrite findTicketId_unfold;
    destruct (maxDepth <? depth)%float; try reflexivity.
  - unfold indexed. rewrite scan_indexed. apply search_barren.
    simpl in Hplain. rewrite forallb_forall in Hplain.
    rewrite Forall_forall in IH |- *. intros x Hin.
    apply IH; [exact Hin | apply Hplain; exact Hin].
  - rewrite scan_plain by exact Hplain. apply search_barren.
    simpl in Hplain. rewrite forallb_forall in Hplain.
    rewrite Forall_forall in IH |- *. intros kv Hin.
    apply IH; [exact Hin|].
    specialize (Hplain _ Hin). apply andb_true_iff in Hplain. tauto.
Qed.

Lemma plain_elements_barren (elements : list value) (depth maxDepth : float) :
  plain (JArray elements) = true ->
  Forall (fun x => findTicketId x depth maxDepth = Return None) elements.
Proof.
  simpl. intros H. rewrite forallb_forall in H. apply Forall_forall.
  intros x Hin. apply plain_not_found. apply H. exact Hin.
Qed.

Lemma plain_props_barren (props : list (string * value)) (depth maxDepth : float) :
  plain (JObject props) = true ->
  Forall (fun kv => findTicketId (snd kv) depth maxDepth = Return None) props.
Proof.
  simpl. intros H. rewrite forallb_forall in H. apply Forall_forall.
  intros kv Hin. apply plain_not_found. specialize (H _ Hin).
  apply andb_true_iff in H. tauto.
Qed.

(** ** The patterns *)

Lemma direct_key_matches (key : string) (val : value) (id : float) :
  is_direct key = true -> numeric val = Some id -> check_key key val = Found id.
Proof.
  unfold is_direct, check_key. intros Hkey Hval. rewrite Hkey, Hval.
  reflexivity.
Qed.

Lemma ticket_key_matches (key : string) (tprops : list (string * value))
  (field : value) (id : float) :
  toLowerCase key = "ticket" -> assoc "id" tprops = Some field ->
  numeric field = Some id -> check_key key (JObject tprops) = Found id.
Proof.
  intros Hkey Hfield Hnum. unfold check_key, ticket_pattern, id_of.
  rewrite Hkey. simpl. rewrite Hfield, Hnum.
  destruct field; simpl in *; try reflexivity; discriminate.
Qed.

Lemma empty_ticketdata_raises (key : string) :
  toLowerCase key = "ticketdata" -> check_key key (JArray []) = Raised TypeError.
Proof.
  intros Hkey. unfold check_key, ticket_pattern, ticketdata_pattern.
  rewrite Hkey. reflexivity.
Qed.

Lemma first_match_returns (pre post : list (string * value)) key val id
  (depth maxDepth : float) :
  (maxDepth <? depth)%float = false -> Forall passes pre -> check_key key val = Found id ->
  findTicketId (JObject (pre ++ (key, val) :: post)) depth maxDepth
  = Return (Some id).
Proof.
  intros Hd Hpre Hkey. rewrite findTicketId_unfold, Hd.
  rewrite (scan_first_match pre post key val id) by assumption. reflexivity.
Qed.

Lemma first_throw_leaves (pre post : list (string * value)) key val e
  (depth maxDepth : float) :
  (maxDepth <? depth)%float = false -> Forall passes pre -> check_key key val = Raised e ->
  findTicketId (JObject (pre ++ (key, val) :: post)) depth maxDepth = Throw e.
Proof.
  intros Hd Hpre Hkey. rewrite findTicketId_unfold, Hd.
  rewrite (scan_first_throw pre post key val e) by assumption. reflexivity.
Qed.

(** Two numbers that [=?] tells apart are different. *)
Lemma float_neq (x y : float) :
  PrimFloat.eqb x y = false -> PrimFloat.eqb x x = true -> x <> y.
Proof. intros Hxy Hxx E. rewrite <- E in Hxy. congruence. Qed.

Lemma returned_neq (x y : float) :
  PrimFloat.eqb x y = false -> PrimFloat.eqb x x = true ->
  Return (Some x) <> Return (Some y).
Proof.
  intros Hxy Hxx E. apply (float_neq x y Hxy Hxx).
  apply (f_equal (fun o => match o with Return (Some z) => z | _ => x end)) in E.
  exact E.
Qed.

(** ** C2: which of a direct [ticketId] and a nested [ticket.id] wins *)

(** C2, as stated, fails: in [{"ticket":{"id":1},"ticketId":2}] the
    direct key holds the number 2 and [ticket.id] the number 1, and
    [findTicketId] returns 1, the value under the key that comes first. *)
Lemma ticket_before_direct_returns_ticket_id :
  let obj := JObject [("ticket", JObject [("id", JNumber 1)]);
                      ("ticketId", JNumber 2)] in
  is_direct "ticketId" = true /\
  numeric (JNumber 2) = Some 2%float /\
  findTicketId obj 0 10 = Return (Some 1%float) /\
  findTicketId obj 0 10 <> Return (Some 2%float).
Proof.
  cbv zeta. repeat split; try reflexivity.
  change (Return (Some 1%float) <> Return (Some 2%float)).
  apply returned_neq; reflexivity.
Qed.

(** C2, amended: in a mapping that holds a direct [ticketId] (or
    [ticket_id], in any case) with a numeric or numeric-looking value and
    a [ticket] key whose mapping has a numeric or numeric-looking [id],
    with no property before the first of the two on which a pattern
    matches or throws, [findTicketId], called with a [depth] that does
    not exceed [maxDepth], returns the value under whichever of the two
    keys the enumeration reaches first: the direct value when the direct
    key comes first, [ticket.id] when [ticket] comes first. *)
Theorem first_of_direct_and_ticket_wins
  (pre mid post tprops : list (string * value)) (dkey tkey : string)
  (dval tfield : value) (direct_id ticket_id : float) (depth maxDepth : float) :
  (maxDepth <? depth)%float = false ->
  Forall passes pre ->
  is_direct dkey = true -> numeric dval = Some direct_id ->
  toLowerCase tkey = "ticket" ->
  assoc "id" tprops = Some tfield -> numeric tfield = Some ticket_id ->
  findTicketId
    (JObject (pre ++ (dkey, dval) :: mid ++ (tkey, JObject tprops) :: post))
    depth maxDepth = Return (Some direct_id)
  /\
  findTicketId
    (JObject (pre ++ (tkey, JObject tprops) :: mid ++ (dkey, dval) :: post))
    depth maxDepth = Return (Some ticket_id).
Proof.
  intros Hd Hpre Hdk Hdv Htk Htf Htn. split.
  - apply first_match_returns; try assumption.
    apply direct_key_matches; assumption.
  - apply first_match_returns; try assumption.
    apply (ticket_key_matches tkey tprops tfield); assumption.
Qed.

(** The direct key is spelled with a Kelvin sign for its [K], and its
    value starts with a no-break space. *)
Lemma first_of_direct_and_ticket_wins_witness :
  let direct := ("TIC" ++ Demo.kelvin ++ "ET_ID",
                 JString (Demo.no_break_space ++ "7")) in
  let nested := ("Ticket", JObject [("id", JNumber 9)]) in
  findTicketId (JObject [("note", JNull); direct; ("at", JString "x"); nested]) 0 10
  = Return (Some 7%float)
  /\
  findTicketId (JObject [("note", JNull); nested; ("at", JString "x"); direct]) 0 10
  = Return (Some 9%float).
Proof.
  cbv zeta.
  apply (first_of_direct_and_ticket_wins
           [("note", JNull)] [("at", JString "x")] [] [("id", JNumber 9)]
           ("TIC" ++ Demo.kelvin ++ "ET_ID") "Ticket"
           (JString (Demo.no_break_space ++ "7")) (JNumber 9) 7%float 9%float 0 10).
  - reflexivity.
  - repeat constructor.
  - reflexivity.
  - vm_compute. reflexivity.
  - reflexivity.
  - reflexivity.
  - reflexivity.
Defined.

(** ** C4: an empty [ticketdata] array *)

(** Wherever the first loop reaches a [ticketdata] key that holds an
    empty array, the read of [ticketObj[0].id] throws and the whole call
    ends with that exception. *)
Lemma empty_ticketdata_throws (pre post : list (string * value)) (key : string)
  (depth maxDepth : float) :
  (maxDepth <? depth)%float = false -> Forall passes pre -> toLowerCase key = "ticketdata" ->
  findTicketId (JObject (pre ++ (key, JArray []) :: post)) depth maxDepth
  = Throw TypeError.
Proof.
  intros Hd Hpre Hkey. apply first_throw_leaves; try assumption.
  apply empty_ticketdata_raises. exact Hkey.
Qed.

(** C4: on [{"ticketdata": []}], and on a document that has a ticket id
    further on, [findTicketId] with the default bounds does not return:
    it throws a [TypeError]. *)
Theorem findTicketId_empty_ticketdata :
  findTicketId (JObject [("ticketdata", JArray [])]) 0 10 = Throw TypeError
  /\
  findTicketId (JObject [("ticketdata", JArray []); ("ticketId", JNumber 5)]) 0 10
  = Throw TypeError.
Proof. split; reflexivity. Qed.

(** ** C7: the depth bound *)

(** C7: in [{"ticketdata": [], "a": {"b": {"ticketId": 7}}}] the only
    recognizable ticket field, the [ticketId] that holds 7, lies two
    levels below the root.  With [maxDepth] 1, which the field lies
    deeper than, [findTicketId] does not return [null], and with
    [maxDepth] 2 or the default 10, which cover the field, it does not
    return 7: at every bound the first loop reads [ticketObj[0].id] off
    the empty [ticketdata] array of the root and throws a [TypeError].
    A [ticket] key that holds [null] does the same.  Without that one
    property the same value gives [null] within 1 level and 7 within
    2. *)
Theorem deep_field_beside_empty_ticketdata_throws :
  let deep := ("a", JObject [("b", JObject [("ticketId", JNumber 7)])]) in
  let v := JObject [("ticketdata", JArray []); deep] in
  let w := JObject [("ticket", JNull); deep] in
  (findTicketId v 0 1 = Throw TypeError /\
   findTicketId v 0 2 = Throw TypeError /\
   findTicketId v 0 10 = Throw TypeError) /\
  (findTicketId w 0 1 = Throw TypeError /\
   findTicketId w 0 2 = Throw TypeError) /\
  (findTicketId (JObject [deep]) 0 1 = Return None /\
   findTicketId (JObject [deep]) 0 2 = Return (Some 7%float)).
Proof. cbv zeta. repeat split; reflexivity. Qed.

(** ** The message handler *)

Lemma isGzip_magic (message : list byte) :
  IndexJs.isGzip message = true <-> exists rest, message = x1f :: x8b :: rest.
Proof.
  unfold IndexJs.isGzip, byte_is. split.
  - destruct message as [|b0 [|b1 rest]]; simpl; try discriminate.
    intros H. apply andb_true_iff in H. destruct H as [H0 H1].
    apply Byte.byte_dec_bl in H0, H1. subst. exists rest. reflexivity.
  - intros [rest ->]. reflexivity.
Qed.

Lemma on_message_decoded (rt : runtime) (c : clock) (topic : string)
  (message : list byte) (text : string) (parsed : value) :
  IndexJs.jsonString rt message = Return text ->
  JSON_parse rt text = Some parsed ->
  IndexJs.on_message rt c topic message =
  ([Console Rule; Console MessageReceived; Console (TopicLine topic);
    Console (TimeLine (iso_logged c));
    Console (SizeLine (List.length message)); Console RuleNewline;
    Broadcast "mqtt-event" (IndexJs.mqtt_event c topic message text parsed)],
   Return tt).
Proof.
  intros Htext Hparse. unfold IndexJs.on_message. rewrite Htext, Hparse.
  reflexivity.
Qed.

Lemma on_message_failed (rt : runtime) (c : clock) (topic : string)
  (message : list byte) (e : exn) :
  IndexJs.data rt message = Throw e ->
  IndexJs.on_message rt c topic message = ([], Throw e).
Proof.
  unfold IndexJs.data, IndexJs.on_message, bind, parse.
  destruct (IndexJs.jsonString rt message) as [text | e'].
  - destruct (JSON_parse rt text); [discriminate | intros [= <-]; reflexivity].
  - intros [= <-]. reflexivity.
Qed.

Lemma on_message_failed' (rt : runtime) (c : clock) (topic : string)
  (message : list byte) (e : exn) :
  IndexJs.data rt message = Throw e ->
  Part000.on_message rt c topic message = ([], Throw e).
Proof.
  unfold IndexJs.data, Part000.on_message, bind, parse.
  change (Part000.jsonString rt message) with (IndexJs.jsonString rt message).
  destruct (IndexJs.jsonString rt message) as [text | e'].
  - destruct (JSON_parse rt text); [discriminate | intros [= <-]; reflexivity].
  - intros [= <-]. reflexivity.
Qed.

(** ** C1: what the broadcast event carries *)

(** C1, as stated, fails: the gzip-compressed message
    [{"ticket":{"id":42}}] on topic [orders/42] is decoded and broadcast,
    and the event the viewers receive has neither a [correlationId] nor a
    [colorKey] property. *)
Lemma gzip_ticket_event_lacks_correlation_fields :
  let run := IndexJs.on_message Demo.runtime Demo.clock "orders/42" Demo.gzip42 in
  let event := IndexJs.mqtt_event Demo.clock "orders/42" Demo.gzip42
                 Demo.text42 Demo.ticket42 in
  snd run = Return tt /\
  broadcasts (fst run) = [event] /\
  field event "correlationId" = None /\
  field event "colorKey" = None.
Proof. cbv zeta. repeat split; reflexivity. Qed.

(** C1, amended: for every successfully decoded broker message the
    handler broadcasts one event, whose properties are exactly [id],
    [topic], [size], [isCompressed], [time], [raw] and [parsed]: it has
    no [correlationId] and no [colorKey].  The correlation id and the
    color are what [findTicketId] and [getTicketColor] of
    ticket-utils.js give on the event's [parsed] property: when a
    gzip-framed message decodes to [{"ticket":{"id":42}}], the event has
    [isCompressed] true and [parsed.ticket.id] 42, [findTicketId] of its
    [parsed] returns 42, and [getTicketColor(42)] is not the neutral
    color. *)
Theorem event_fields_and_viewer_side_correlation (rt : runtime) (c : clock)
  (topic : string) (message : list byte) (text : string) (parsed : value) :
  IndexJs.jsonString rt message = Return text ->
  JSON_parse rt text = Some parsed ->
  let run := IndexJs.on_message rt c topic message in
  let event := IndexJs.mqtt_event c topic message text parsed in
  snd run = Return tt /\
  broadcasts (fst run) = [event] /\
  keys event = ["id"; "topic"; "size"; "isCompressed"; "time"; "raw"; "parsed"] /\
  field event "raw" = Some (JString text) /\
  field event "parsed" = Some parsed /\
  field event "isCompressed" = Some (JBool (IndexJs.isGzip message)) /\
  field event "correlationId" = None /\
  field event "colorKey" = None /\
  (IndexJs.isGzip message = true -> parsed = Demo.ticket42 ->
   field event "isCompressed" = Some (JBool true) /\
   dot_id (field parsed "ticket") = Return (Some (JNumber 42)) /\
   findTicketId parsed 0 10 = Return (Some 42%float) /\
   getTicketColor (Some 42%float) <> getTicketColor None).
Proof.
  intros Htext Hparse. cbv zeta.
  rewrite (on_message_decoded rt c topic message text parsed Htext Hparse).
  do 8 (split; [reflexivity|]).
  intros Hgz ->. simpl. rewrite Hgz.
  do 3 (split; [reflexivity|]). discriminate.
Qed.

Lemma event_fields_and_viewer_side_correlation_witness :
  let run := IndexJs.on_message Demo.runtime Demo.clock "orders/42" Demo.gzip42 in
  let event := IndexJs.mqtt_event Demo.clock "orders/42" Demo.gzip42
                 Demo.text42 Demo.ticket42 in
  (IndexJs.jsonString Demo.runtime Demo.gzip42 = Return Demo.text42 /\
   JSON_parse Demo.runtime Demo.text42 = Some Demo.ticket42) /\
  broadcasts (fst run) = [event] /\
  field event "correlationId" = None /\
  field event "colorKey" = None /\
  field event "isCompressed" = Some (JBool true) /\
  dot_id (field Demo.ticket42 "ticket") = Return (Some (JNumber 42)) /\
  findTicketId Demo.ticket42 0 10 = Return (Some 42%float) /\
  getTicketColor (Some 42%float) <> getTicketColor None.
Proof.
  cbv zeta. split; [split; reflexivity|].
  destruct (event_fields_and_viewer_side_correlation
              Demo.runtime Demo.clock "orders/42" Demo.gzip42 Demo.text42
              Demo.ticket42 eq_refl eq_refl)
    as (_ & Hcast & _ & _ & _ & _ & Hcorr & Hcolor & Hticket).
  destruct (Hticket eq_refl eq_refl) as (Hgz & Hid & Hfind & Hneutral).
  repeat (split; [assumption|]). exact Hneutral.
Defined.

(** ** C3: a message that fails to decode *)

(** C3, as stated, fails: on the text [{bad], and on a gzip header with
    nothing after it, the handler prints nothing and does not return:
    the parser's or the decompressor's exception leaves it. *)
Lemma undecodable_message_escapes_unreported :
  IndexJs.on_message Demo.runtime Demo.clock "orders/42" Demo.malformed_bytes
  = ([], Throw SyntaxError) /\
  IndexJs.on_message Demo.runtime Demo.clock "orders/42" Demo.truncated_gzip
  = ([], Throw ZlibError) /\
  Part000.on_message Demo.runtime Demo.clock "orders/42" Demo.malformed_bytes
  = ([], Throw SyntaxError).
Proof. repeat split; reflexivity. Qed.

(** C3, amended: for every received message whose bytes fail gzip
    decompression or fail to parse, in either copy of the handler, no
    event is broadcast and nothing is printed for it, and the handler
    does not contain the failure: the exception leaves the handler for
    its caller, the broker client. *)
Theorem decode_failure_leaves_handler (rt : runtime) (c : clock)
  (topic : string) (message : list byte) (e : exn) :
  IndexJs.data rt message = Throw e ->
  let run := IndexJs.on_message rt c topic message in
  let run' := Part000.on_message rt c topic message in
  (broadcasts (fst run) = [] /\ printed (fst run) = [] /\ snd run = Throw e) /\
  (Part000.data rt message = Throw e /\
   broadcasts (fst run') = [] /\ printed (fst run') = [] /\ snd run' = Throw e).
Proof.
  intros Hfail. cbv zeta.
  rewrite (on_message_failed' rt c topic message e Hfail).
  rewrite (on_message_failed rt c topic message e Hfail).
  repeat split; try reflexivity. exact Hfail.
Qed.

Lemma decode_failure_leaves_handler_witness :
  let run := IndexJs.on_message Demo.runtime Demo.clock "orders/42"
               Demo.malformed_bytes in
  let run' := Part000.on_message Demo.runtime Demo.clock "orders/42"
                Demo.truncated_gzip in
  IndexJs.data Demo.runtime Demo.malformed_bytes = Throw SyntaxError /\
  (broadcasts (fst run) = [] /\ printed (fst run) = [] /\ snd run = Throw SyntaxError) /\
  (broadcasts (fst run') = [] /\ printed (fst run') = [] /\ snd run' = Throw ZlibError).
Proof.
  cbv zeta. split; [reflexivity|]. split.
  - apply (decode_failure_leaves_handler
             Demo.runtime Demo.clock "orders/42" Demo.malformed_bytes SyntaxError).
    reflexivity.
  - apply (decode_failure_leaves_handler
             Demo.runtime Demo.clock "orders/42" Demo.truncated_gzip ZlibError).
    reflexivity.
Defined.

(** ** C6: the gzip sniff *)

Lemma not_gzip_magic (message : list byte) :
  IndexJs.isGzip message = false <-> forall rest, message <> x1f :: x8b :: rest.
Proof.
  split.
  - intros H rest E. assert (Hgz : IndexJs.isGzip message = true)
      by (apply isGzip_magic; exists rest; exact E).
    congruence.
  - intros H. destruct (IndexJs.isGzip message) eqn:E; [|reflexivity].
    apply isGzip_magic in E. destruct E as [rest E]. destruct (H rest E).
Qed.

(** C6: a message whose first two bytes are 0x1F, 0x8B is inflated in
    full and the inflated bytes are decoded and parsed (a failed
    inflation is the outcome); any other message is decoded and parsed
    as it is; so when [gunzipSync] inflates [compressed] to [plain], and
    [plain] is not itself gzip-framed (a JSON text starts with none of
    these bytes), both give the same structured value. *)
Theorem gzip_sniff_normalizes (rt : runtime) :
  (forall rest,
     IndexJs.data rt (x1f :: x8b :: rest) =
     match gunzipSync rt (x1f :: x8b :: rest) with
     | Some inflated => parse rt (toString_utf8 rt inflated)
     | None => Throw ZlibError
     end) /\
  (forall message,
     (forall rest, message <> x1f :: x8b :: rest) ->
     IndexJs.data rt message = parse rt (toString_utf8 rt message)) /\
  (forall compressed plain rest,
     compressed = x1f :: x8b :: rest ->
     gunzipSync rt compressed = Some plain ->
     (forall rest', plain <> x1f :: x8b :: rest') ->
     IndexJs.data rt compressed = IndexJs.data rt plain).
Proof.
  assert (Hplain : forall message,
             (forall rest, message <> x1f :: x8b :: rest) ->
             IndexJs.data rt message = parse rt (toString_utf8 rt message)).
  { intros message H. apply not_gzip_magic in H.
    unfold IndexJs.data, IndexJs.jsonString. rewrite H. reflexivity. }
  assert (Hgzip : forall rest,
             IndexJs.data rt (x1f :: x8b :: rest) =
             match gunzipSync rt (x1f :: x8b :: rest) with
             | Some inflated => parse rt (toString_utf8 rt inflated)
             | None => Throw ZlibError
             end).
  { intros rest. unfold IndexJs.data, IndexJs.jsonString.
    change (IndexJs.isGzip (x1f :: x8b :: rest)) with true. cbv iota.
    destruct (gunzipSync rt (x1f :: x8b :: rest)); reflexivity. }
  split; [exact Hgzip|]. split; [exact Hplain|].
  intros compressed plain rest -> Hinflate Hnot.
  rewrite Hgzip, Hinflate, (Hplain plain Hnot). reflexivity.
Qed.

Lemma gzip_sniff_normalizes_witness :
  IndexJs.data Demo.runtime Demo.gzip42 = Return Demo.ticket42 /\
  IndexJs.data Demo.runtime Demo.text42_bytes = Return Demo.ticket42 /\
  IndexJs.data Demo.runtime Demo.gzip42 = IndexJs.data Demo.runtime Demo.text42_bytes.
Proof.
  destruct (gzip_sniff_normalizes Demo.runtime) as (Hgzip & Hplain & Hsame).
  split; [|split].
  - exact (eq_trans (Hgzip (skipn 2 Demo.gzip42)) eq_refl).
  - rewrite (Hplain Demo.text42_bytes); [reflexivity | discriminate].
  - apply (Hsame Demo.gzip42 Demo.text42_bytes (skipn 2 Demo.gzip42));
      [reflexivity | reflexivity | discriminate].
Defined.

(** ** C9: the two copies of the message handler *)

Lemma handlers_decode_alike (rt : runtime) (message : list byte) :
  Part000.jsonString rt message = IndexJs.jsonString rt message.
Proof. reflexivity. Qed.

(** C9: on every broker message the handler of [index.js] and the
    handler of its earlier copy end the same way (both return, or both
    throw the same exception) and broadcast events that agree on
    [topic], [size], [isCompressed], [raw] and [parsed], whatever the
    two clocks read; on the same clock readings the events are the
    same. *)
Theorem message_handlers_agree (rt : runtime) (c c' : clock) (topic : string)
  (message : list byte) :
  snd (IndexJs.on_message rt c topic message)
  = snd (Part000.on_message rt c' topic message) /\
  Forall2 (fun event event' =>
             forall key,
               In key ["topic"; "size"; "isCompressed"; "raw"; "parsed"] ->
               field event key = field event' key)
          (broadcasts (fst (IndexJs.on_message rt c topic message)))
          (broadcasts (fst (Part000.on_message rt c' topic message))) /\
  broadcasts (fst (IndexJs.on_message rt c topic message))
  = broadcasts (fst (Part000.on_message rt c topic message)).
Proof.
  unfold IndexJs.on_message, Part000.on_message.
  change (Part000.jsonString rt message) with (IndexJs.jsonString rt message).
  destruct (IndexJs.jsonString rt message) as [text | e].
  - destruct (JSON_parse rt text) as [parsed | ]; simpl.
    + split; [reflexivity|]. split; [|reflexivity].
      constructor; [|constructor].
      intros key Hin. simpl in Hin.
      destruct Hin as [<- | [<- | [<- | [<- | [<- | []]]]]]; reflexivity.
    + split; [reflexivity|]. split; [constructor | reflexivity].
  - simpl. split; [reflexivity|]. split; [constructor | reflexivity].
Qed.

(** ** The republish handler *)


(** Destructuring [null] throws before the [try] is entered. *)
Lemma on_republish_null (rt : runtime)
  (publish : value -> string -> publish_result) :
  IndexJs.on_republish rt publish JNull = ([], Throw TypeError).
Proof. reflexivity. Qed.

(** What the handler does once its argument is destructured. *)
Lemma on_republish_body (rt : runtime)
  (publish : value -> string -> publish_result) (arg : value) :
  arg <> JNull ->
  IndexJs.on_republish rt publish arg =
  match if_truthy (field arg "topic"), if_truthy (field arg "payload") with
  | Some topic, Some payload =>
      let message := IndexJs.wire_message rt payload in
      match publish topic message with
      | Acked =>
          ([Publish topic message; Console (Republished topic);
            Reply "republish-result" (IndexJs.result_success topic)], Return tt)
      | Failed reason =>
          ([Publish topic message; Console (RepublishFailed reason);
            Reply "republish-result" (IndexJs.result_error reason)], Return tt)
      | Thrown reason =>
          ([Publish topic message;
            Reply "republish-result" (IndexJs.result_error reason)], Return tt)
      end
  | _, _ => ([Reply "republish-result" IndexJs.result_invalid], Return tt)
  end.
Proof.
  intros Harg. destruct arg; [destruct (Harg eq_refl) | | | | | ]; reflexivity.
Qed.

Lemma on_republish_rejects (rt : runtime)
  (publish : value -> string -> publish_result) (arg : value) :
  arg <> JNull ->
  if_truthy (field arg "topic") = None \/ if_truthy (field arg "payload") = None ->
  IndexJs.on_republish rt publish arg
  = ([Reply "republish-result" IndexJs.result_invalid], Return tt).
Proof.
  intros Harg H. rewrite on_republish_body by exact Harg.
  destruct H as [-> | ->]; [reflexivity|].
  destruct (if_truthy (field arg "topic")); reflexivity.
Qed.

Lemma on_republish_forwards (rt : runtime)
  (publish : value -> string -> publish_result) (arg topic payload : value) :
  if_truthy (field arg "topic") = Some topic ->
  if_truthy (field arg "payload") = Some payload ->
  IndexJs.on_republish rt publish arg =
  let message := IndexJs.wire_message rt payload in
  match publish topic message with
  | Acked =>
      ([Publish topic message; Console (Republished topic);
        Reply "republish-result" (IndexJs.result_success topic)], Return tt)
  | Failed reason =>
      ([Publish topic message; Console (RepublishFailed reason);
        Reply "republish-result" (IndexJs.result_error reason)], Return tt)
  | Thrown reason =>
      ([Publish topic message;
        Reply "republish-result" (IndexJs.result_error reason)], Return tt)
  end.
Proof.
  intros Ht Hp. rewrite on_republish_body by (intros ->; discriminate).
  rewrite Ht, Hp. reflexivity.
Qed.

(** ** C5: one result for each republish request *)

(** C5: a republish request that is [null], and one that comes with no
    data at all, gets no result: destructuring the argument throws a
    [TypeError] before the [try] is entered, so the [catch] that turns
    every other failure into a [{success: false, error}] result is not
    reached; nothing is sent to the viewer, nothing is published, and
    the exception leaves the handler. *)
Theorem null_republish_request_gets_no_result (rt : runtime)
  (publish : value -> string -> publish_result) :
  let run := IndexJs.on_republish_call rt publish (Some JNull) in
  let run' := IndexJs.on_republish_call rt publish None in
  (snd run = Throw TypeError /\ replies (fst run) = [] /\ publishes (fst run) = []) /\
  (snd run' = Throw TypeError /\ replies (fst run') = [] /\ publishes (fst run') = []).
Proof. cbv zeta. repeat split; reflexivity. Qed.

(** ** C10: falsy payloads *)

Lemma falsy_payloads :
  truthy (JNumber 0) = false /\ truthy (JBool false) = false /\
  truthy (JString "") = false.
Proof. repeat split; reflexivity. Qed.

(** C10: a request whose [payload] is falsy (the number 0, [false] and
    the empty string are) is answered with
    [{success: false, error: "Invalid topic or payload"}], and that is
    all the handler does: nothing is published. *)
Theorem falsy_payload_rejected (rt : runtime)
  (publish : value -> string -> publish_result) (arg payload : value) :
  field arg "payload" = Some payload ->
  truthy payload = false ->
  IndexJs.on_republish rt publish arg
  = ([Reply "republish-result"
        (JObject [("success", JBool false);
                  ("error", JString "Invalid topic or payload")])],
     Return tt)
  /\ publishes (fst (IndexJs.on_republish rt publish arg)) = [].
Proof.
  intros Hp Hfalsy.
  assert (H : IndexJs.on_republish rt publish arg
              = ([Reply "republish-result" IndexJs.result_invalid], Return tt)).
  { apply on_republish_rejects.
    - intros ->. discriminate.
    - right. rewrite Hp. simpl. rewrite Hfalsy. reflexivity. }
  rewrite H. split; reflexivity.
Qed.

Lemma falsy_payload_rejected_witness :
  let zero := JObject [("topic", JString "t"); ("payload", JNumber 0)] in
  let no := JObject [("topic", JString "t"); ("payload", JBool false)] in
  let empty := JObject [("topic", JString "t"); ("payload", JString "")] in
  let rejected := ([Reply "republish-result" IndexJs.result_invalid], Return tt) in
  IndexJs.on_republish Demo.runtime Demo.accepting zero = rejected /\
  IndexJs.on_republish Demo.runtime Demo.accepting no = rejected /\
  IndexJs.on_republish Demo.runtime Demo.accepting empty = rejected.
Proof.
  cbv zeta. split; [|split].
  - apply (falsy_payload_rejected Demo.runtime Demo.accepting
             (JObject [("topic", JString "t"); ("payload", JNumber 0)]) (JNumber 0));
      reflexivity.
  - apply (falsy_payload_rejected Demo.runtime Demo.accepting
             (JObject [("topic", JString "t"); ("payload", JBool false)]) (JBool false));
      reflexivity.
  - apply (falsy_payload_rejected Demo.runtime Demo.accepting
             (JObject [("topic", JString "t"); ("payload", JString "")]) (JString ""));
      reflexivity.
Defined.

(** ** C8: the color of a ticket id *)

(** C8: 9007199254740990 and 9007199254740991 are consecutive integers,
    both exact as numbers, and [getTicketColor] gives both the hue 232:
    the two colors differ by one point of saturation and of lightness
    only.  The hues do not differ by the golden-ratio step (222.49...
    degrees) modulo 360 but by 0, which is 137.5 degrees away from
    it. *)
Theorem large_consecutive_ids_share_hue :
  let id := 9007199254740990%float in
  let next := 9007199254740991%float in
  (id + 1)%float = next /\
  getTicketColor (Some id) = Hsl 232 75 45 /\
  getTicketColor (Some next) = Hsl 232 76 46 /\
  golden_step = 222.49223594996221%float /\
  step_deviation id = 137.50776405003779%float.
Proof. cbv zeta. repeat split; vm_compute; reflexivity. Qed.

(** * More of the code *)

(** ** [findTicketId]: the depth counter *)

Section SearchMore.
Context {A : Type} (child : A -> value).

Lemma search_ext (recurse recurse' : value -> outcome (option float)) (l : list A) :
  Forall (fun a => recurse (child a) = recurse' (child a)) l ->
  search child recurse l = search child recurse' l.
Proof.
  induction 1 as [|a l Ha _ IH]; simpl.
  - reflexivity.
  - rewrite Ha, IH. reflexivity.
Qed.

Lemma search_none_inv (recurse : value -> outcome (option float)) (l : list A) :
  search child recurse l = Return None ->
  Forall (fun a => typeof_object (child a) = true ->
                   recurse (child a) = Return None) l.
Proof.
  induction l as [|a l IH]; simpl; intros H.
  - constructor.
  - destruct (typeof_object (child a)) eqn:Hobj.
    + destruct (recurse (child a)) as [[id|]|e] eqn:Hrec; try discriminate.
      constructor; [intros _; exact Hrec | apply IH; exact H].
    + constructor; [congruence | apply IH; exact H].
Qed.

Lemma search_none (recurse : value -> outcome (option float)) (l : list A) :
  Forall (fun a => typeof_object (child a) = true ->
                   recurse (child a) = Return None) l ->
  search child recurse l = Return None.
Proof.
  induction 1 as [|a l Ha _ IH]; simpl.
  - reflexivity.
  - destruct (typeof_object (child a)); [rewrite Ha by reflexivity|]; exact IH.
Qed.

Lemma search_found_inv (recurse : value -> outcome (option float)) (l : list A)
  (id : float) :
  search child recurse l = Return (Some id) ->
  exists a, In a l /\ recurse (child a) = Return (Some id).
Proof.
  induction l as [|a l IH]; simpl; intros H.
  - discriminate.
  - destruct (typeof_object (child a)).
    + destruct (recurse (child a)) as [[id'|]|e] eqn:Hrec; try discriminate.
      * exists a. split; [left; reflexivity | rewrite Hrec; exact H].
      * destruct (IH H) as (b & Hin & Hb). exists b. split; [right|]; assumption.
    + destruct (IH H) as (b & Hin & Hb). exists b. split; [right|]; assumption.
Qed.

Lemma search_returns (recurse : value -> outcome (option float)) (l : list A) :
  Forall (fun a => exists r, recurse (child a) = Return r) l ->
  exists r, search child recurse l = Return r.
Proof.
  induction 1 as [|a l [r Ha] _ [r' IH]]; simpl.
  - exists None. reflexivity.
  - destruct (typeof_object (child a)); [|exists r'; exact IH].
    rewrite Ha. destruct r as [id|]; [exists (Some id); reflexivity | exists r'; exact IH].
Qed.
End SearchMore.

(** X2: a mapping with one property costs one level, whatever its key
    is called as long as no pattern reads it: wrapped in [n] such
    mappings, within a bound that admits the [n] levels of wrapping, a
    value is searched as it would be [n] levels further down the
    count. *)
Theorem envelopes_cost_one_level_each (keys : list string) (v : value)
  (depth maxDepth : float) :
  Forall (fun key => ticketish key = false) keys ->
  (forall j, (j < List.length keys)%nat -> (maxDepth <? level depth j)%float = false) ->
  findTicketId (enveloped keys v) depth maxDepth
  = findTicketId v (level depth (List.length keys)) maxDepth.
Proof.
  intros Hkeys. revert depth.
  induction Hkeys as [|key keys Hkey _ IH]; intros depth Hopen; [reflexivity|].
  cbn [enveloped List.length level].
  rewrite <- (IH (depth + 1)%float)
    by (intros j Hj; apply (Hopen (S j)); simpl; lia).
  set (inner := enveloped keys v).
  rewrite (findTicketId_unfold (JObject _)).
  assert (Hhere : (maxDepth <? depth)%float = false)
    by (apply (Hopen 0%nat); simpl; lia).
  rewrite Hhere. cbn [scan]. rewrite check_key_other by exact Hkey. cbn [search snd].
  destruct (typeof_object inner) eqn:Hobj.
  - destruct (findTicketId inner (depth + 1) maxDepth) as [[id|]|e]; reflexivity.
  - symmetry. apply findTicketId_primitive. exact Hobj.
Qed.

Lemma envelopes_cost_one_level_each_witness :
  let inner := JObject [("ticketId", JNumber 7)] in
  let wrapped := enveloped ["payload"; "order"] inner in
  findTicketId wrapped 0 2 = findTicketId inner 2 2 /\
  findTicketId wrapped 0 2 = Return (Some 7%float) /\
  findTicketId wrapped 0 1 = Return None.
Proof.
  cbv zeta. split; [|split; reflexivity].
  apply (envelopes_cost_one_level_each ["payload"; "order"]
           (JObject [("ticketId", JNumber 7)]) 0 2).
  - repeat constructor.
  - intros [|[|j]] Hj; [reflexivity | reflexivity | simpl in Hj; lia].
Defined.

(** X3: not finding is kept when the bound shrinks: if a search within
    [deep] levels returns [null], so does the search within any smaller
    bound (it neither finds an id nor throws). *)
Theorem absent_within_smaller_bound (v : value) (depth shallow deep : float) :
  (shallow <=? deep)%float = true ->
  findTicketId v depth deep = Return None ->
  findTicketId v depth shallow = Return None.
Proof.
  intros Hle. revert depth.
  induction v as [ | b | n | s | elements IH | props IH ] using value_induction;
    intros depth; rewrite !findTicketId_unfold;
    destruct (shallow <? depth)%float eqn:Hs; try reflexivity;
    destruct (deep <? depth)%float eqn:Hd;
    try (rewrite (leb_ltb_trans shallow deep depth Hle Hd) in Hs; discriminate);
    try reflexivity.
  - destruct (scan (indexed elements)); try discriminate.
    intros H. apply search_none. apply search_none_inv in H.
    rewrite Forall_forall in IH, H |- *. intros x Hin Hobj.
    apply IH; [exact Hin | apply H; assumption].
  - destruct (scan props); try discriminate.
    intros H. apply search_none. apply search_none_inv in H.
    rewrite Forall_forall in IH, H |- *. intros kv Hin Hobj.
    apply IH; [exact Hin | apply H; assumption].
Qed.

Lemma absent_within_smaller_bound_witness :
  let v := JObject [("a", JObject [("b", JObject [("note", JString "x")])])] in
  findTicketId v 0 1 = Return None.
Proof.
  cbv zeta.
  apply (absent_within_smaller_bound
           (JObject [("a", JObject [("b", JObject [("note", JString "x")])])])
           0 1 10).
  - reflexivity.
  - reflexivity.
Defined.

(** ** [findTicketId]: what a turn of the first loop reads *)

(** The three patterns exclude one another by the key, so a turn of the
    loop comes down to one of them. *)
Lemma check_key_normal (key : string) (val : value) :
  check_key key val =
  if is_direct key then
    match numeric val with Some id => Found id | None => Continue end
  else if String.eqb (toLowerCase key) "ticket" then
    if typeof_object val then id_of (Some val) Continue else Continue
  else if String.eqb (toLowerCase key) "ticketdata" then
    if typeof_object val then
      match index0 val with
      | Throw e => Raised e
      | Return first => id_of first Continue
      end
    else Continue
  else Continue.
Proof.
  unfold check_key, is_direct, ticket_pattern, ticketdata_pattern.
  destruct (String.eqb (toLowerCase key) "ticketid") eqn:E1.
  { apply String.eqb_eq in E1. rewrite E1. simpl.
    destruct (numeric val); reflexivity. }
  destruct (String.eqb (toLowerCase key) "ticket_id") eqn:E2.
  { apply String.eqb_eq in E2. rewrite E2. simpl.
    destruct (numeric val); reflexivity. }
  destruct (String.eqb (toLowerCase key) "ticket") eqn:E3.
  { apply String.eqb_eq in E3. rewrite E3. simpl.
    destruct (typeof_object val); reflexivity. }
  simpl. destruct (String.eqb (toLowerCase key) "ticketdata"); reflexivity.
Qed.

Lemma found_eq (a b : float) : Found a = Found b -> a = b.
Proof.
  intros H. exact (f_equal (fun r => match r with Found x => x | _ => a end) H).
Qed.

Lemma id_of_inv (o : option value) (id : float) :
  id_of o Continue = Found id ->
  exists inner, dot_id o = Return (Some inner) /\ numeric inner = Some id.
Proof.
  unfold id_of. destruct (dot_id o) as [[inner|]|e]; try discriminate.
  destruct (not_nullish (Some inner)); try discriminate.
  destruct (numeric inner) as [id'|] eqn:Hnum; try discriminate.
  intros H. apply found_eq in H. subst id'. exists inner. split; reflexivity || assumption.
Qed.

Lemma check_key_found_inv (key : string) (val : value) (id : float) :
  check_key key val = Found id -> Recognized id key val.
Proof.
  rewrite check_key_normal. unfold Recognized.
  destruct (is_direct key) eqn:Hd.
  { destruct (numeric val) as [id'|] eqn:Hnum; try discriminate.
    intros H. apply found_eq in H. subst id'. left. split; reflexivity. }
  destruct (String.eqb (toLowerCase key) "ticket") eqn:Ht.
  { apply String.eqb_eq in Ht. destruct (typeof_object val); try discriminate.
    intros H. right. left. split; [exact Ht|]. apply id_of_inv. exact H. }
  destruct (String.eqb (toLowerCase key) "ticketdata") eqn:Htd; try discriminate.
  apply String.eqb_eq in Htd. destruct (typeof_object val); try discriminate.
  destruct (index0 val) as [first|e] eqn:Hfirst; try discriminate.
  intros H. right. right. split; [exact Htd|].
  destruct (id_of_inv first id H) as (inner & Hdot & Hnum).
  destruct first as [first|]; [|discriminate].
  exists first, inner. repeat split; assumption.
Qed.

Lemma id_of_raised (o : option value) (e : exn) :
  id_of o Continue = Raised e ->
  e = TypeError /\ (o = None \/ o = Some JNull).
Proof.
  unfold id_of. destruct o as [[ | b | n | s | l | props]|]; simpl;
    try discriminate; try (intros [= <-]; auto).
  - destruct (not_nullish (assoc "id" props)); try discriminate.
    destruct (assoc "id" props) as [inner|]; try discriminate.
    destruct (numeric inner); discriminate.
Qed.

(** The turns of the first loop that throw are the risky ones, and
    what they throw is a [TypeError]. *)
Lemma check_key_raises_iff (key : string) (val : value) (e : exn) :
  check_key key val = Raised e <-> e = TypeError /\ risky key val = true.
Proof.
  rewrite check_key_normal. unfold risky.
  destruct (is_direct key) eqn:Hd.
  { unfold is_direct in Hd.
    assert (Hnot : String.eqb (toLowerCase key) "ticket" = false /\
                   String.eqb (toLowerCase key) "ticketdata" = false).
    { apply orb_true_iff in Hd. destruct Hd as [Hd | Hd];
        apply String.eqb_eq in Hd; rewrite Hd; split; reflexivity. }
    destruct Hnot as [-> ->]. simpl.
    split; [destruct (numeric val); discriminate | intros [_ H]; discriminate]. }
  destruct (String.eqb (toLowerCase key) "ticket") eqn:Ht.
  { assert (Htd : String.eqb (toLowerCase key) "ticketdata" = false)
      by (apply String.eqb_eq in Ht; rewrite Ht; reflexivity).
    rewrite Htd. simpl. rewrite orb_false_r.
    destruct val as [ | b | n | s | l | props]; simpl; split;
      try discriminate; try (intros [_ H]; discriminate);
      try (intros [= <-]; split; reflexivity); try (intros [-> _]; reflexivity).
    intros H. apply id_of_raised in H. destruct H as [_ [H | H]]; discriminate. }
  simpl.
  destruct (String.eqb (toLowerCase key) "ticketdata") eqn:Htd; simpl;
    [|split; [discriminate | intros [_ H]; discriminate]].
  destruct val as [ | b | n | s | l | props]; simpl; split;
    try discriminate; try (intros [_ H]; discriminate);
    try (intros [= <-]; split; reflexivity); try (intros [-> _]; reflexivity).
  - intros H. apply id_of_raised in H. destruct H as [-> [H | H]].
    + destruct l; [split; reflexivity | discriminate].
    + destruct l as [|x l]; [discriminate|]. simpl in H.
      assert (x = JNull) by congruence. subst x. split; reflexivity.
  - intros [-> H]. destruct l as [|[ | | | | | ] l]; try discriminate; reflexivity.
  - intros H. apply id_of_raised in H. destruct H as [-> [H | H]]; rewrite H;
      split; reflexivity.
  - intros [-> H]. destruct (assoc "0" props) as [[ | | | | | ]|]; try discriminate;
      reflexivity.
Qed.

Lemma scan_found_inv (props : list (string * value)) (id : float) :
  scan props = Found id ->
  exists key val, In (key, val) props /\ check_key key val = Found id.
Proof.
  induction props as [|[k x] props IH]; simpl; [discriminate|].
  destruct (check_key k x) as [id'| e |] eqn:Hk; try discriminate.
  - intros H. exists k, x. split; [left; reflexivity|]. rewrite Hk. exact H.
  - intros H. destruct (IH H) as (key & val & Hin & Hkey).
    exists key, val. split; [right|]; assumption.
Qed.

Lemma scan_harmless (props : list (string * value)) (e : exn) :
  Forall (fun kv => risky (fst kv) (snd kv) = false) props ->
  scan props <> Raised e.
Proof.
  induction 1 as [|[k x] props Hkv _ IH]; simpl; [discriminate|].
  destruct (check_key k x) as [id'| e' |] eqn:Hk; try discriminate; [|exact IH].
  apply check_key_raises_iff in Hk. simpl in Hkv. destruct Hk as [_ Hk]. congruence.
Qed.

(** ** [findTicketId]: order of the traversal, and where an id comes from *)

Section SearchOrder.
Context {A : Type} (child : A -> value).
Variable recurse : value -> outcome (option float).

Lemma search_first_decides (pre post : list A) (a : A) :
  Forall (fun a => recurse (child a) = Return None) pre ->
  typeof_object (child a) = true ->
  recurse (child a) <> Return None ->
  search child recurse (pre ++ a :: post) = recurse (child a).
Proof.
  intros Hpre Hobj Hsome. rewrite (search_reaches child recurse pre post a Hpre Hobj).
  destruct (recurse (child a)) as [[id|]|e]; try reflexivity.
  destruct Hsome. reflexivity.
Qed.

Lemma search_throw_inv (l : list A) (e : exn) :
  search child recurse l = Throw e ->
  exists a, In a l /\ recurse (child a) = Throw e.
Proof.
  induction l as [|a l IH]; simpl; intros H.
  - discriminate.
  - destruct (typeof_object (child a)).
    + destruct (recurse (child a)) as [[id'|]|e'] eqn:Hrec; try discriminate.
      * destruct (IH H) as (b & Hin & Hb). exists b. split; [right|]; assumption.
      * exists a. split; [left; reflexivity | rewrite Hrec; exact H].
    + destruct (IH H) as (b & Hin & Hb). exists b. split; [right|]; assumption.
Qed.
End SearchOrder.

(** X4: a node's children are searched depth-first in key order, after
    the node's own keys: when no own key matches or throws, the first
    child whose search finds an id or throws gives the result of the
    node, whatever the children after it hold. *)
Theorem first_child_with_a_result_decides (child : value) (depth maxDepth : float)
  (result : outcome (option float)) :
  (maxDepth <? depth)%float = false ->
  typeof_object child = true ->
  findTicketId child (depth + 1) maxDepth = result ->
  result <> Return None ->
  (forall pre key post,
     scan (pre ++ (key, child) :: post) = Continue ->
     Forall (fun kv => findTicketId (snd kv) (depth + 1) maxDepth = Return None) pre ->
     findTicketId (JObject (pre ++ (key, child) :: post)) depth maxDepth = result)
  /\
  (forall pre post,
     Forall (fun x => findTicketId x (depth + 1) maxDepth = Return None) pre ->
     findTicketId (JArray (pre ++ child :: post)) depth maxDepth = result).
Proof.
  intros Hd Hobj Hres Hsome. split.
  - intros pre key post Hscan Hpre.
    rewrite findTicketId_unfold, Hd, Hscan.
    rewrite (search_first_decides snd _ pre post (key, child)); simpl;
      try assumption; congruence.
  - intros pre post Hpre.
    rewrite findTicketId_unfold, Hd.
    unfold indexed. rewrite scan_indexed.
    rewrite (search_first_decides (fun x => x) _ pre post child);
      try assumption; congruence.
Qed.

Lemma first_child_with_a_result_decides_witness :
  let deep := JObject [("wrap", JObject [("ticketId", JNumber 1)])] in
  let shallow := JObject [("ticketId", JNumber 2)] in
  let broken := JObject [("ticketdata", JArray [])] in
  findTicketId (JObject [("note", JString "x"); ("first", deep);
                         ("second", shallow); ("third", broken)]) 0 10
  = Return (Some 1%float)
  /\ findTicketId (JArray [JNull; deep; shallow; broken]) 0 10 = Return (Some 1%float).
Proof.
  cbv zeta.
  destruct (first_child_with_a_result_decides
              (JObject [("wrap", JObject [("ticketId", JNumber 1)])]) 0 10
              (Return (Some 1%float))) as [Hobject Harray].
  - reflexivity.
  - reflexivity.
  - reflexivity.
  - discriminate.
  - split.
    + apply (Hobject [("note", JString "x")] "first"
               [("second", JObject [("ticketId", JNumber 2)]);
                ("third", JObject [("ticketdata", JArray [])])]).
      * reflexivity.
      * repeat constructor.
    + apply (Harray [JNull]
               [JObject [("ticketId", JNumber 2)];
                JObject [("ticketdata", JArray [])]]).
      repeat constructor.
Defined.

Lemma found_is_held (v : value) (depth maxDepth : float) (id : float) :
  findTicketId v depth maxDepth = Return (Some id) -> Holds id v.
Proof.
  revert depth.
  induction v as [ | b | n | s | elements IH | props IH ] using value_induction;
    intros depth; rewrite findTicketId_unfold;
    destruct (maxDepth <? depth)%float; try discriminate.
  - unfold indexed. rewrite scan_indexed. intros H.
    apply search_found_inv in H. destruct H as (x & Hin & Hx).
    apply (holds_in_array id elements x Hin).
    rewrite Forall_forall in IH. apply (IH x Hin (depth + 1)%float). exact Hx.
  - destruct (scan props) as [id'| e |] eqn:Hscan; try discriminate.
    + intros H. assert (id' = id)
        by exact (f_equal (fun r => match r with Return (Some x) => x | _ => id' end) H).
      subst id'. apply scan_found_inv in Hscan.
      destruct Hscan as (key & val & Hin & Hkey).
      apply (holds_here id props key val Hin). apply check_key_found_inv. exact Hkey.
    + intros H. apply search_found_inv in H. destruct H as ([key x] & Hin & Hx).
      apply (holds_in_object id props key x Hin).
      rewrite Forall_forall in IH. apply (IH (key, x) Hin (depth + 1)%float). exact Hx.
Qed.

(** X5: an id [findTicketId] returns is read off the value: somewhere
    in it a mapping has a [ticketId] / [ticket_id] key with that
    numeric value, or a [ticket] key whose object has it as [id], or a
    [ticketdata] key whose first element has it as [id]. *)
Theorem returned_id_is_read_off_the_value (v : value) (depth maxDepth : float)
  (id : float) :
  findTicketId v depth maxDepth = Return (Some id) -> Holds id v.
Proof. apply found_is_held. Qed.

Lemma returned_id_is_read_off_the_value_witness :
  Holds 42 (JObject [("order", JArray [JObject [("ticket", JObject [("id", JString "42")])]])])
  /\ Holds 5 (JObject [("TIC" ++ Demo.kelvin ++ "ETID", JNumber 5)]).
Proof.
  split.
  - apply (returned_id_is_read_off_the_value _ 0 10 42%float).
    vm_compute. reflexivity.
  - apply (returned_id_is_read_off_the_value _ 0 10 5%float).
    vm_compute. reflexivity.
Defined.

(** ** [findTicketId]: when it throws *)

Lemma returns_or_type_error (v : value) (depth maxDepth : float) :
  (harmless v = true -> exists r, findTicketId v depth maxDepth = Return r) /\
  (forall e, findTicketId v depth maxDepth = Throw e -> e = TypeError).
Proof.
  revert depth.
  induction v as [ | b | n | s | elements IH | props IH ] using value_induction;
    intros depth; rewrite findTicketId_unfold;
    destruct (maxDepth <? depth)%float;
    try (split; [intros _; exists None; reflexivity | discriminate]).
  - unfold indexed. rewrite scan_indexed. rewrite Forall_forall in IH. split.
    + intros Hh. simpl in Hh. rewrite forallb_forall in Hh.
      apply search_returns. apply Forall_forall. intros x Hin.
      apply (IH x Hin (depth + 1)%float). apply Hh. exact Hin.
    + intros e H. apply search_throw_inv in H. destruct H as (x & Hin & Hx).
      apply (IH x Hin (depth + 1)%float). exact Hx.
  - rewrite Forall_forall in IH. split.
    + intros Hh. simpl in Hh. rewrite forallb_forall in Hh.
      destruct (scan props) as [id| e |] eqn:Hscan.
      * exists (Some id). reflexivity.
      * exfalso. apply (scan_harmless props e); [|exact Hscan].
        apply Forall_forall. intros kv Hin. specialize (Hh kv Hin).
        apply andb_true_iff in Hh. destruct Hh as [Hr _].
        apply negb_true_iff in Hr. exact Hr.
      * apply search_returns. apply Forall_forall. intros kv Hin.
        apply (IH kv Hin (depth + 1)%float). specialize (Hh kv Hin).
        apply andb_true_iff in Hh. tauto.
    + intros e. destruct (scan props) as [id| e' |] eqn:Hscan; try discriminate.
      * intros [= <-]. clear IH. induction props as [|[k x] props IHp]; [discriminate|].
        simpl in Hscan. destruct (check_key k x) as [id'| e'' |] eqn:Hk;
          try discriminate.
        -- apply check_key_raises_iff in Hk. destruct Hk as [Hk _]. congruence.
        -- apply IHp. exact Hscan.
      * intros H. apply search_throw_inv in H. destruct H as (kv & Hin & Hx).
        apply (IH kv Hin (depth + 1)%float). exact Hx.
Qed.

(** X6: [findTicketId] returns, with an id or with [null], on every
    value that has no risky property (no [ticket] key holding [null], no
    [ticketdata] key holding [null] or something whose first element is
    missing or [null]); and whatever it throws is a [TypeError]. *)
Theorem throws_nothing_without_a_risky_property (v : value) (depth maxDepth : float) :
  (harmless v = true -> exists r, findTicketId v depth maxDepth = Return r) /\
  (forall e, findTicketId v depth maxDepth = Throw e -> e = TypeError).
Proof. apply returns_or_type_error. Qed.

Lemma throws_nothing_without_a_risky_property_witness :
  exists r,
    findTicketId (JObject [("ticket", JObject []); ("ticketdata", JArray [JObject []])])
                 0 10 = Return r.
Proof.
  apply (throws_nothing_without_a_risky_property
           (JObject [("ticket", JObject []); ("ticketdata", JArray [JObject []])]) 0 10).
  reflexivity.
Defined.

(** X7: the first loop throws on the first risky property it reaches:
    when no property before it matches or throws, a [ticket] key that
    holds [null], or a [ticketdata] key that holds [null], an empty
    array, an array starting with [null], or an object without a usable
    property [0], ends the whole call with a [TypeError], whatever comes
    after it. *)
Theorem risky_property_throws (pre post : list (string * value)) (key : string)
  (val : value) (depth maxDepth : float) :
  (maxDepth <? depth)%float = false -> Forall passes pre -> risky key val = true ->
  findTicketId (JObject (pre ++ (key, val) :: post)) depth maxDepth = Throw TypeError.
Proof.
  intros Hd Hpre Hrisky. apply first_throw_leaves; try assumption.
  apply check_key_raises_iff. split; [reflexivity | exact Hrisky].
Qed.

Lemma risky_property_throws_witness :
  findTicketId (JObject [("note", JString "x"); ("Ticket", JNull);
                         ("ticketId", JNumber 5)]) 0 10 = Throw TypeError
  /\ findTicketId (JObject [("ticketData", JArray [JNull; JObject [("id", JNumber 5)]])])
                  0 10 = Throw TypeError
  /\ findTicketId (JObject [("TIC" ++ Demo.kelvin ++ "ET", JNull)]) 0 10 = Throw TypeError.
Proof.
  split; [|split].
  - apply (risky_property_throws [("note", JString "x")] [("ticketId", JNumber 5)]
             "Ticket" JNull 0 10); [reflexivity | repeat constructor | reflexivity].
  - apply (risky_property_throws [] []
             "ticketData" (JArray [JNull; JObject [("id", JNumber 5)]]) 0 10);
      [reflexivity | constructor | reflexivity].
  - apply (risky_property_throws [] [] ("TIC" ++ Demo.kelvin ++ "ET") JNull 0 10);
      [reflexivity | constructor | reflexivity].
Defined.

(** ** [findTicketId]: blank strings, and the case of keys *)

Lemma blank_is_zero (s : string) :
  blank s = true -> numeric (JString s) = Some 0%float.
Proof.
  intros H. unfold numeric, StringToNumber, trim.
  rewrite (trim_left_blank s H). reflexivity.
Qed.

(** X8: a direct [ticketId] that holds the empty string, or white space
    only (of the ASCII range or not), counts as numeric-looking ([isNaN]
    of it is false) and gives the id 0. *)
Theorem blank_ticket_id_is_zero (pre post : list (string * value)) (key s : string)
  (depth maxDepth : float) :
  (maxDepth <? depth)%float = false -> Forall passes pre -> is_direct key = true ->
  blank s = true ->
  findTicketId (JObject (pre ++ (key, JString s) :: post)) depth maxDepth
  = Return (Some 0%float).
Proof.
  intros Hd Hpre Hkey Hblank. apply first_match_returns; try assumption.
  apply direct_key_matches; [exact Hkey | apply blank_is_zero; exact Hblank].
Qed.

Lemma blank_ticket_id_is_zero_witness :
  findTicketId (JObject [("ticketId", JString "")]) 0 10 = Return (Some 0%float) /\
  findTicketId (JObject [("ticket_id", JString "   ")]) 0 10 = Return (Some 0%float) /\
  findTicketId (JObject [("ticket_id", JString Demo.no_break_space)]) 0 10
  = Return (Some 0%float).
Proof.
  split; [|split].
  - apply (blank_ticket_id_is_zero [] [] "ticketId" "" 0 10);
      [reflexivity | constructor | reflexivity | reflexivity].
  - apply (blank_ticket_id_is_zero [] [] "ticket_id" "   " 0 10);
      [reflexivity | constructor | reflexivity | reflexivity].
  - apply (blank_ticket_id_is_zero [] [] "ticket_id" Demo.no_break_space 0 10);
      [reflexivity | constructor | reflexivity | reflexivity].
Defined.

Section Rekey.
Variable f : string -> string.
Hypothesis f_case : forall key, toLowerCase (f key) = toLowerCase key.
Hypothesis f_id : forall key, String.eqb (f key) "id" = String.eqb key "id".









Lemma scan_indexed_from (elements : list value) (i : nat) :
  scan (indexed_from i (map (rekey f) elements)) = scan (indexed_from i elements).
Proof. rewrite !scan_indexed. reflexivity. Qed.

End Rekey.


(** X10: the [id] inside a [ticket] object is looked up as spelled: a
    [ticket] key whose object has no property named exactly [id], and
    no ticket key otherwise, gives no match (so [{"ticket": {"ID": 5}}]
    is not recognized). *)
Theorem nested_id_is_case_sensitive (pre post tprops : list (string * value))
  (tkey : string) (depth maxDepth : float) :
  toLowerCase tkey = "ticket" ->
  assoc "id" tprops = None ->
  plain (JObject pre) = true -> plain (JObject post) = true ->
  plain (JObject tprops) = true ->
  findTicketId (JObject (pre ++ (tkey, JObject tprops) :: post)) depth maxDepth
  = Return None.
Proof.
  intros Hkey Hid Hpre Hpost Ht.
  rewrite findTicketId_unfold. destruct (maxDepth <? depth)%float; [reflexivity|].
  assert (Hpass : check_key tkey (JObject tprops) = Continue).
  { rewrite check_key_normal. unfold is_direct. rewrite Hkey. simpl.
    unfold id_of. simpl. rewrite Hid. reflexivity. }
  rewrite scan_skip by (apply plain_props_pass; exact Hpre).
  simpl scan. rewrite Hpass, (scan_plain post Hpost).
  apply search_barren. apply Forall_app. split; [|constructor].
  - apply plain_props_barren. exact Hpre.
  - cbn [snd]. apply plain_not_found. exact Ht.
  - apply plain_props_barren. exact Hpost.
Qed.

Lemma nested_id_is_case_sensitive_witness :
  findTicketId (JObject [("ticket", JObject [("ID", JNumber 5)])]) 0 10 = Return None.
Proof.
  apply (nested_id_is_case_sensitive [] [] [("ID", JNumber 5)] "ticket" 0 10);
    reflexivity.
Defined.

(** ** [findTicketId]: without a bound *)

Lemma recognized_found (id : float) (key : string) (val : value) :
  Recognized id key val -> check_key key val = Found id.
Proof.
  rewrite check_key_normal. unfold Recognized, is_direct.
  intros [[Hkey Hnum] | [[Hkey (inner & Hdot & Hnum)]
                        | [Hkey (first & inner & Hfirst & Hdot & Hnum)]]].
  - unfold is_direct in Hkey. rewrite Hkey, Hnum. reflexivity.
  - rewrite Hkey. cbn [String.eqb Ascii.eqb Bool.eqb orb].
    destruct val as [ | b | n | s | l | props]; try discriminate.
    cbn [typeof_object]. unfold id_of. rewrite Hdot, Hnum.
    destruct inner; try reflexivity; discriminate.
  - rewrite Hkey. cbn [String.eqb Ascii.eqb Bool.eqb orb].
    assert (Hobj : typeof_object val = true).
    { destruct val as [ | b | n | s | l | props]; try reflexivity; discriminate. }
    rewrite Hobj, Hfirst. unfold id_of. rewrite Hdot, Hnum.
    destruct inner; try reflexivity; discriminate.
Qed.

Lemma quiet_passes (kv : string * value) : quiet kv -> passes kv.
Proof.
  intros [Hrisky Hnone]. unfold passes.
  destruct (check_key (fst kv) (snd kv)) as [id | e |] eqn:Hk; [| |reflexivity].
  - destruct (Hnone id). apply check_key_found_inv. exact Hk.
  - apply check_key_raises_iff in Hk. destruct Hk as [_ Hk]. congruence.
Qed.

Lemma scan_passes (props : list (string * value)) :
  Forall passes props -> scan props = Continue.
Proof.
  intros H. rewrite <- (app_nil_r props). rewrite scan_skip by exact H.
  reflexivity.
Qed.

Lemma scan_continue_inv (props : list (string * value)) :
  scan props = Continue -> Forall passes props.
Proof.
  induction props as [|[k x] props IH]; simpl; [constructor|].
  destruct (check_key k x) eqn:Hk; try discriminate.
  intros H. constructor; [exact Hk | apply IH; exact H].
Qed.

(** No depth exceeds [Infinity]. *)
Lemma infinity_never_cuts (depth : float) : (infinity <? depth)%float = false.
Proof.
  rewrite ltb_spec. change (Prim2SF infinity) with (S754_infinity false).
  destruct (Prim2SF depth) as [[]|[]| |[]]; reflexivity.
Qed.

Lemma Holds_object (id : float) (v : value) : Holds id v -> typeof_object v = true.
Proof. destruct 1; reflexivity. Qed.

Lemma held_is_not_missed (id : float) (v : value) :
  Holds id v -> forall depth, findTicketId v depth infinity <> Return None.
Proof.
  induction 1 as [props key val Hin Hrec | props key child Hin Hheld IH
                 | elements child Hin Hheld IH];
    intros depth; rewrite findTicketId_unfold, infinity_never_cuts.
  - destruct (scan props) as [id' | e |] eqn:Hscan; try discriminate.
    apply scan_continue_inv in Hscan. rewrite Forall_forall in Hscan.
    specialize (Hscan _ Hin). unfold passes in Hscan. cbn [fst snd] in Hscan.
    rewrite (recognized_found id key val Hrec) in Hscan. discriminate.
  - destruct (scan props) as [id' | e |]; try discriminate.
    intros Hnone. apply search_none_inv in Hnone. rewrite Forall_forall in Hnone.
    apply (IH (depth + 1)%float). apply (Hnone (key, child) Hin).
    apply (Holds_object id). exact Hheld.
  - unfold indexed. rewrite scan_indexed.
    intros Hnone. apply search_none_inv in Hnone. rewrite Forall_forall in Hnone.
    apply (IH (depth + 1)%float). apply (Hnone child Hin).
    apply (Holds_object id). exact Hheld.
Qed.

(** X23: with [Infinity] for [maxDepth] no field is missed: on a value
    that holds, at any level, a property a pattern reads an id off,
    [findTicketId] does not return [null]; it throws or returns an id,
    and when the value has no risky property it returns an id that the
    value holds (that of the first field the traversal reaches).  *)
Theorem unbounded_search_misses_no_field (id : float) (v : value) (depth : float) :
  Holds id v ->
  findTicketId v depth infinity <> Return None /\
  (harmless v = true ->
   exists found, findTicketId v depth infinity = Return (Some found) /\ Holds found v).
Proof.
  intros Hheld. split; [apply (held_is_not_missed id); exact Hheld|].
  intros Hharmless.
  destruct (returns_or_type_error v depth infinity) as [Hret _].
  destruct (Hret Hharmless) as [[found|] Hr].
  - exists found. split; [exact Hr | apply (found_is_held v depth infinity); exact Hr].
  - destruct (held_is_not_missed id v Hheld depth Hr).
Qed.

Lemma unbounded_search_misses_no_field_witness :
  let deep := enveloped ["a"; "b"; "c"; "d"; "e"; "f"; "g"; "h"; "i"; "j"; "k"; "l"]
                (JObject [("ticket", JObject [("id", JNumber 7)])]) in
  findTicketId deep 0 10 = Return None /\
  exists found, findTicketId deep 0 infinity = Return (Some found) /\ Holds found deep.
Proof.
  cbv zeta. split; [reflexivity|].
  destruct (unbounded_search_misses_no_field 7%float
              (enveloped ["a"; "b"; "c"; "d"; "e"; "f"; "g"; "h"; "i"; "j"; "k"; "l"]
                 (JObject [("ticket", JObject [("id", JNumber 7)])])) 0)
    as [_ Hfound].
  - do 12 (eapply holds_in_object; [left; reflexivity|]).
    apply (holds_here 7%float _ "ticket" (JObject [("id", JNumber 7)]));
      [left; reflexivity|].
    right. left. split; [reflexivity|]. exists (JNumber 7). split; reflexivity.
  - apply Hfound. reflexivity.
Defined.

(** ** [findTicketId]: the depth bound *)

Lemma barren_not_found (v : value) (depth maxDepth : float) :
  barren v -> findTicketId v depth maxDepth = Return None.
Proof.
  intros [Hharmless Hnone].
  destruct (returns_or_type_error v depth maxDepth) as [Hret _].
  destruct (Hret Hharmless) as [[id|] Hr]; [|exact Hr].
  destruct (Hnone id). apply (found_is_held v depth maxDepth). exact Hr.
Qed.

Lemma barren_props (props : list (string * value)) :
  barren (JObject props) ->
  Forall quiet props /\ Forall (fun kv => barren (snd kv)) props.
Proof.
  intros [Hharmless Hnone]. cbn [harmless] in Hharmless.
  rewrite forallb_forall in Hharmless.
  split; apply Forall_forall; intros [k x] Hin;
    specialize (Hharmless _ Hin); cbn [fst snd] in *;
    apply andb_true_iff in Hharmless; destruct Hharmless as [Hrisky Hchild].
  - split; [apply negb_true_iff; exact Hrisky|].
    intros id Hrec. apply (Hnone id). apply (holds_here id props k x Hin Hrec).
  - split; [exact Hchild|].
    intros id Hheld. apply (Hnone id). apply (holds_in_object id props k x Hin Hheld).
Qed.

Lemma barren_elements (elements : list value) :
  barren (JArray elements) -> Forall barren elements.
Proof.
  intros [Hharmless Hnone]. cbn [harmless] in Hharmless.
  rewrite forallb_forall in Hharmless.
  apply Forall_forall. intros x Hin. split; [apply Hharmless; exact Hin|].
  intros id Hheld. apply (Hnone id). apply (holds_in_array id elements x Hin Hheld).
Qed.

Lemma barren_props_missed (props : list (string * value)) (depth maxDepth : float) :
  barren (JObject props) ->
  Forall (fun kv => findTicketId (snd kv) depth maxDepth = Return None) props.
Proof.
  intros H. destruct (barren_props props H) as [_ Hchildren].
  apply (Forall_impl _ (fun kv Hkv => barren_not_found (snd kv) depth maxDepth Hkv)).
  exact Hchildren.
Qed.

Lemma barren_elements_missed (elements : list value) (depth maxDepth : float) :
  barren (JArray elements) ->
  Forall (fun x => findTicketId x depth maxDepth = Return None) elements.
Proof.
  intros H.
  apply (Forall_impl _ (fun x Hx => barren_not_found x depth maxDepth Hx)).
  apply barren_elements. exact H.
Qed.

(** A value in which no key is one a pattern reads is barren. *)
Lemma plain_barren (v : value) : plain v = true -> barren v.
Proof.
  intros Hplain. split.
  - induction v as [ | b | n | s | elements IH | props IH ] using value_induction;
      try reflexivity; cbn [plain harmless] in *; rewrite forallb_forall in *;
      rewrite Forall_forall in IH.
    + intros x Hin. apply IH; [exact Hin | apply Hplain; exact Hin].
    + intros [k x] Hin. specialize (Hplain _ Hin). cbn [fst snd] in *.
      apply andb_true_iff in Hplain. destruct Hplain as [Hkey Hchild].
      apply negb_true_iff in Hkey.
      destruct (not_ticketish_parts k Hkey) as (_ & _ & H3 & H4).
      unfold risky. rewrite H3, H4. cbn [andb orb negb].
      apply (IH (k, x) Hin). exact Hchild.
  - intros id Hheld.
    revert Hplain.
    induction Hheld as [props key val Hin Hrec | props key child Hin _ IH
                       | elements child Hin _ IH]; cbn [plain];
      rewrite forallb_forall; intros Hplain.
    + specialize (Hplain _ Hin). cbn [fst snd] in Hplain.
      apply andb_true_iff in Hplain. destruct Hplain as [Hkey _].
      apply negb_true_iff in Hkey.
      apply recognized_found in Hrec.
      rewrite (check_key_other key val Hkey) in Hrec. discriminate.
    + specialize (Hplain _ Hin). apply andb_true_iff in Hplain.
      apply IH. tauto.
    + apply IH. apply Hplain. exact Hin.
Qed.

(** So is a value with no risky property on which the search without
    a bound finds nothing. *)
Lemma barren_by_search (v : value) :
  harmless v = true -> findTicketId v 0 infinity = Return None -> barren v.
Proof.
  intros Hharmless Hnone. split; [exact Hharmless|].
  intros id Hheld. apply (held_is_not_missed id v Hheld 0). exact Hnone.
Qed.

Lemma FieldAt_object (id : float) (d : nat) (v : value) :
  FieldAt id d v -> typeof_object v = true.
Proof. destruct 1; reflexivity. Qed.

Lemma depth_bound_at (id : float) (d : nat) (v : value) :
  FieldAt id d v ->
  forall depth maxDepth,
    ((maxDepth <? level depth d)%float = true ->
     findTicketId v depth maxDepth = Return None) /\
    ((forall j, (j <= d)%nat -> (maxDepth <? level depth j)%float = false) ->
     findTicketId v depth maxDepth = Return (Some id)).
Proof.
  induction 1 as [ pre key val post Hpre Hrec
                 | pre key child post d Hpre Hpost Hkey Hchild IH
                 | pre child post d Hpre Hpost Hchild IH ];
    intros depth maxDepth.
  - split.
    + intros Hcut. apply findTicketId_beyond. exact Hcut.
    + intros Hopen. apply first_match_returns.
      * apply (Hopen 0%nat). lia.
      * apply (Forall_impl _ quiet_passes). exact Hpre.
      * apply recognized_found. exact Hrec.
  - assert (Hscan : scan (pre ++ (key, child) :: post) = Continue).
    { apply scan_passes. apply Forall_app. split; [|constructor].
      - apply (Forall_impl _ quiet_passes). apply barren_props. exact Hpre.
      - apply quiet_passes. exact Hkey.
      - apply (Forall_impl _ quiet_passes). apply barren_props. exact Hpost. }
    destruct (IH (depth + 1)%float maxDepth) as [IHnone IHsome].
    destruct (maxDepth <? depth)%float eqn:Hhere.
    { split; [intros _; apply findTicketId_beyond; exact Hhere|].
      intros Hopen. pose proof (Hopen 0%nat (Nat.le_0_l _)) as Hroot.
      cbn [level] in Hroot. congruence. }
    split; intros Hd; rewrite findTicketId_unfold, Hhere, Hscan;
      rewrite (search_reaches snd _ pre post (key, child))
        by (try apply barren_props_missed; try apply (FieldAt_object id d); assumption);
      cbn [snd].
    + rewrite IHnone by exact Hd. apply search_barren, barren_props_missed. exact Hpost.
    + rewrite IHsome; [reflexivity|]. intros j Hj. apply (Hd (S j)). lia.
  - destruct (IH (depth + 1)%float maxDepth) as [IHnone IHsome].
    destruct (maxDepth <? depth)%float eqn:Hhere.
    { split; [intros _; apply findTicketId_beyond; exact Hhere|].
      intros Hopen. pose proof (Hopen 0%nat (Nat.le_0_l _)) as Hroot.
      cbn [level] in Hroot. congruence. }
    split; intros Hd; rewrite findTicketId_unfold, Hhere;
      unfold indexed; rewrite scan_indexed;
      rewrite (search_reaches (fun x => x) _ pre post child)
        by (try apply barren_elements_missed; try apply (FieldAt_object id d); assumption).
    + rewrite IHnone by exact Hd. apply search_barren, barren_elements_missed. exact Hpost.
    + rewrite IHsome; [reflexivity|]. intros j Hj. apply (Hd (S j)). lia.
Qed.

Lemma small_levels (j : nat) (m : Z) :
  (j <= 100)%nat -> 0 <= m <= 100 ->
  (Z_to_float m <? level 0 j)%float = (m <? Z.of_nat j).
Proof.
  intros Hj Hm.
  assert (Htable : counts_like_integers 100 = true) by (vm_compute; reflexivity).
  unfold counts_like_integers in Htable. rewrite forallb_forall in Htable.
  specialize (Htable j). rewrite forallb_forall in Htable.
  specialize (Htable ltac:(apply in_seq; lia) (Z.to_nat m) ltac:(apply in_seq; lia)).
  apply Bool.eqb_prop in Htable. rewrite Z2Nat.id in Htable by lia.
  rewrite Htable. destruct (Nat.ltb_spec (Z.to_nat m) j), (Z.ltb_spec m (Z.of_nat j));
    try reflexivity; lia.
Qed.

(** X20: when the ticket field of a value is a property of a mapping
    [d] levels below the root, and nothing else in the value (before the
    field in its mapping, on the way down, beside the way) is a property
    that a pattern reads an id off or a risky one ([FieldAt]), then
    [findTicketId] returns [null], and does not throw, for every
    [maxDepth] that the count at the field's level exceeds, and returns
    the field's value for every [maxDepth] that the count exceeds at no
    level down to the field's.  In a search from depth 0 for a field at
    most 100 levels down, these are the integer bounds below [d] and the
    integer bounds from [d] on (up to 100). *)
Theorem depth_bound_separates (id : float) (d : nat) (v : value)
  (depth shallow deep : float) :
  FieldAt id d v ->
  ((shallow <? level depth d)%float = true ->
   findTicketId v depth shallow = Return None) /\
  ((forall j, (j <= d)%nat -> (deep <? level depth j)%float = false) ->
   findTicketId v depth deep = Return (Some id)) /\
  (forall below covering : Z,
     (d <= 100)%nat -> 0 <= below < Z.of_nat d -> Z.of_nat d <= covering <= 100 ->
     findTicketId v 0 (Z_to_float below) = Return None /\
     findTicketId v 0 (Z_to_float covering) = Return (Some id)).
Proof.
  intros Hfield.
  destruct (depth_bound_at id d v Hfield depth shallow) as [Hnone _].
  destruct (depth_bound_at id d v Hfield depth deep) as [_ Hsome].
  split; [exact Hnone|]. split; [exact Hsome|].
  intros below covering Hd Hbelow Hcovering.
  destruct (depth_bound_at id d v Hfield 0 (Z_to_float below)) as [Hnone' _].
  destruct (depth_bound_at id d v Hfield 0 (Z_to_float covering)) as [_ Hsome'].
  split.
  - apply Hnone'. rewrite small_levels by lia. apply Z.ltb_lt. lia.
  - apply Hsome'. intros j Hj. rewrite small_levels by lia. apply Z.ltb_ge. lia.
Qed.

Lemma depth_bound_separates_witness :
  let v := JObject [("meta", JString "x");
                    ("ticket", JObject [("name", JString "n")]);
                    ("order", JArray [JNull;
                                      JObject [("ticketData",
                                                JArray [JObject [("id", JNumber 7)]])]])] in
  findTicketId v 0 0 = Return None /\
  findTicketId v 0 1 = Return None /\
  findTicketId v 0 2 = Return (Some 7%float) /\
  findTicketId v 0 10 = Return (Some 7%float).
Proof.
  cbv zeta.
  destruct (depth_bound_separates 7%float 2
              (JObject [("meta", JString "x");
                        ("ticket", JObject [("name", JString "n")]);
                        ("order", JArray [JNull;
                                          JObject [("ticketData",
                                                    JArray [JObject [("id", JNumber 7)]])]])])
              0 1 2) as (_ & _ & Hbounds).
  - apply (field_in_object 7%float
             [("meta", JString "x"); ("ticket", JObject [("name", JString "n")])]
             "order" _ [] 1).
    + apply barren_by_search; reflexivity.
    + apply plain_barren. reflexivity.
    + split; [reflexivity|]. intros id [[H _] | [[H _] | [H _]]]; discriminate.
    + apply (field_in_array 7%float [JNull] _ [] 0).
      * apply plain_barren. reflexivity.
      * apply plain_barren. reflexivity.
      * apply (field_here 7%float [] "ticketData"
                 (JArray [JObject [("id", JNumber 7)]]) []); [constructor|].
        right. right. split; [reflexivity|].
        exists (JObject [("id", JNumber 7)]), (JNumber 7). repeat split.
  - destruct (Hbounds 0 2) as [Hzero Htwo]; [lia | lia | lia |].
    destruct (Hbounds 1 10) as [Hone Hten]; [lia | lia | lia |].
    split; [exact Hzero|]. split; [exact Hone|]. split; [exact Htwo | exact Hten].
Defined.

(** ** [getTicketColor]: bands and separation *)

Lemma all_from_spec (check : Z -> bool) (count : nat) (z0 : Z) :
  all_from check count z0 = true ->
  forall z, z0 <= z < z0 + Z.of_nat count -> check z = true.
Proof.
  revert z0. induction count as [|c IH]; intros z0 H z Hz.
  - lia.
  - simpl in H. apply andb_true_iff in H. destruct H as [Hhere Hrest].
    destruct (Z.eq_dec z z0) as [-> | Hne]; [exact Hhere|].
    apply (IH (z0 + 1) Hrest). lia.
Qed.

Lemma in_range (count : nat) (z0 z : Z) :
  z0 <= z < z0 + Z.of_nat count -> In z (range count z0).
Proof.
  revert z0. induction count as [|c IH]; intros z0 Hz; [lia|].
  simpl. destruct (Z.eq_dec z z0) as [-> | Hne]; [left; reflexivity|].
  right. apply IH. lia.
Qed.

Lemma separated_range (g : Z -> float) (count : nat) (z0 : Z) :
  separated (map g (range count z0)) = true ->
  forall a b, z0 <= a -> a < b -> b < z0 + Z.of_nat count ->
              apart (g a) (g b) = true.
Proof.
  revert z0. induction count as [|c IH]; intros z0 H a b Ha Hab Hb; [lia|].
  simpl in H. apply andb_true_iff in H. destruct H as [Hhead Hrest].
  destruct (Z.eq_dec a z0) as [-> | Hne].
  - rewrite forallb_forall in Hhead. apply Hhead. apply in_map.
    apply in_range. lia.
  - apply (IH (z0 + 1) Hrest); lia.
Qed.

(** X11: for the integer ids from 0 to 9999 the color is in the bands
    the source's comments give: a hue in [0, 360), the saturation
    [65 + id mod 20] (65 to 84) and the lightness [45 + id mod 15] (45
    to 59).  For the negative ids from -1 to -10000 the remainders keep
    the sign of the id: the hue is in (-360, 0], the saturation is
    [65 - (-id) mod 20] and the lightness [45 - (-id) mod 15], below the
    bands. *)
Theorem color_bands_for_integer_ids (z : Z) :
  (0 <= z < 10000 -> in_bands z = true) /\
  (1 <= z <= 10000 -> in_mirrored_bands z = true).
Proof.
  split; intros Hz.
  - apply (all_from_spec in_bands (Z.to_nat 10000) 0); [vm_compute; reflexivity | lia].
  - apply (all_from_spec in_mirrored_bands (Z.to_nat 10000) 1);
      [vm_compute; reflexivity | lia].
Qed.

Lemma color_bands_for_integer_ids_witness :
  getTicketColor (Some 42%float) = Hsl 344.6739098984126 67 57 /\
  in_bands 42 = true /\
  getTicketColor (Some (-7)%float) = Hsl (-117.44565164973551) 58 38 /\
  in_mirrored_bands 7 = true.
Proof.
  split; [vm_compute; reflexivity|]. split; [|split; [vm_compute; reflexivity|]].
  - apply (color_bands_for_integer_ids 42). lia.
  - apply (color_bands_for_integer_ids 7). lia.
Defined.

(** X12: the first thousand ids get hues that are pairwise apart: for
    integer ids [0 <= a < b < 1000] the hues of the two colors differ by
    at least 0.16 degrees on the color circle. *)
Theorem first_thousand_hues_are_apart (a b : Z) :
  0 <= a -> a < b -> b < 1000 ->
  exists ha sa la hb sb lb,
    getTicketColor (Some (Z_to_float a)) = Hsl ha sa la /\
    getTicketColor (Some (Z_to_float b)) = Hsl hb sb lb /\
    apart ha hb = true.
Proof.
  intros Ha Hab Hb. do 6 eexists. split; [reflexivity|]. split; [reflexivity|].
  apply (separated_range (fun z => hue_of_id (Z_to_float z)) (Z.to_nat 1000) 0);
    [vm_compute; reflexivity | lia | lia | lia].
Qed.

Lemma first_thousand_hues_are_apart_witness :
  exists ha sa la hb sb lb,
    getTicketColor (Some 41%float) = Hsl ha sa la /\
    getTicketColor (Some 42%float) = Hsl hb sb lb /\
    apart ha hb = true.
Proof. apply (first_thousand_hues_are_apart 41 42); lia. Defined.

(** X22: the hue of a present id is [(id * 0.618033988749895 * 360) %
    360] computed in double precision, and for the integer ids from 0
    up to 10000 the hues of [id] and [id + 1] differ by the golden-ratio
    step (the hue of id 1, 222.49... degrees) modulo 360 to within a
    millionth of a degree. *)
Theorem small_consecutive_ids_step_by_golden_ratio (z : Z) :
  0 <= z < 10000 ->
  getTicketColor (Some (Z_to_float z))
  = Hsl (hue_of_id (Z_to_float z)) (65 + fmod (Z_to_float z) 20)
        (45 + fmod (Z_to_float z) 15) /\
  getTicketColor (Some (Z_to_float z + 1)%float)
  = Hsl (hue_of_id (Z_to_float z + 1)) (65 + fmod (Z_to_float z + 1) 20)
        (45 + fmod (Z_to_float z + 1) 15) /\
  (step_deviation (Z_to_float z) <? 1e-6)%float = true.
Proof.
  intros Hz. split; [reflexivity|]. split; [reflexivity|].
  apply (all_from_spec (fun z => (step_deviation (Z_to_float z) <? 1e-6)%float)
           (Z.to_nat 10000) 0); [vm_compute; reflexivity | lia].
Qed.

Lemma small_consecutive_ids_step_by_golden_ratio_witness :
  getTicketColor (Some 42%float) = Hsl 344.6739098984126 67 57 /\
  getTicketColor (Some 43%float) = Hsl 207.16614584837589 68 58 /\
  golden_step = 222.49223594996221%float /\
  (step_deviation 42 <? 1e-6)%float = true.
Proof.
  destruct (small_consecutive_ids_step_by_golden_ratio 42) as (Hid & Hnext & Hstep);
    [lia|].
  split; [exact (eq_trans Hid eq_refl)|].
  split; [exact (eq_trans Hnext eq_refl)|].
  split; [reflexivity | exact Hstep].
Defined.

(** ** The message handler: what an event says, and what the handler does *)

(** X13: every event the message handler broadcasts is consistent with
    the message it came from: [parsed] is what [JSON.parse] gives on
    [raw]; [raw] is the text of the inflated bytes when the message is
    gzip-framed and of the message itself otherwise; [size] counts the
    bytes received, inflated or not; [topic] and [isCompressed] are
    those of the message. *)
Theorem broadcast_event_is_consistent (rt : runtime) (c : clock) (topic : string)
  (message : list byte) (event : value) :
  In event (broadcasts (fst (IndexJs.on_message rt c topic message))) ->
  exists text parsed,
    field event "raw" = Some (JString text) /\
    field event "parsed" = Some parsed /\
    JSON_parse rt text = Some parsed /\
    field event "topic" = Some (JString topic) /\
    field event "size" = Some (JNumber (Z_to_float (Z.of_nat (List.length message)))) /\
    field event "isCompressed" = Some (JBool (IndexJs.isGzip message)) /\
    (if IndexJs.isGzip message
     then exists inflated, gunzipSync rt message = Some inflated /\
                           text = toString_utf8 rt inflated
     else text = toString_utf8 rt message).
Proof.
  unfold IndexJs.on_message.
  destruct (IndexJs.jsonString rt message) as [text | e] eqn:Htext; [|intros []].
  destruct (JSON_parse rt text) as [parsed|] eqn:Hparse; [|intros []].
  simpl. intros [<- | []]. exists text, parsed.
  do 6 (split; [reflexivity || assumption|]).
  unfold IndexJs.jsonString in Htext.
  destruct (IndexJs.isGzip message).
  - destruct (gunzipSync rt message) as [inflated|]; [|discriminate].
    exists inflated. split; [reflexivity | congruence].
  - congruence.
Qed.

Lemma broadcast_event_is_consistent_witness :
  exists text parsed,
    field (IndexJs.mqtt_event Demo.clock "orders/42" Demo.gzip42 Demo.text42 Demo.ticket42)
          "raw" = Some (JString text) /\
    JSON_parse Demo.runtime text = Some parsed /\
    List.length Demo.gzip42 = 40%nat /\ List.length Demo.text42_bytes = 20%nat.
Proof.
  destruct (broadcast_event_is_consistent Demo.runtime Demo.clock "orders/42"
              Demo.gzip42
              (IndexJs.mqtt_event Demo.clock "orders/42" Demo.gzip42 Demo.text42
                 Demo.ticket42))
    as (text & parsed & Hraw & _ & Hparse & _).
  - left. reflexivity.
  - exists text, parsed. repeat split; assumption || reflexivity.
Defined.

(** X14: the message handler only prints and broadcasts: it never
    publishes to the broker and never answers a single viewer; it ends
    normally exactly when it has broadcast one event, and otherwise it
    has broadcast none. *)
Theorem message_handler_only_broadcasts (rt : runtime) (c : clock) (topic : string)
  (message : list byte) :
  let run := IndexJs.on_message rt c topic message in
  publishes (fst run) = [] /\ replies (fst run) = [] /\
  (snd run = Return tt <-> List.length (broadcasts (fst run)) = 1%nat) /\
  (snd run <> Return tt <-> broadcasts (fst run) = []).
Proof.
  cbv zeta. unfold IndexJs.on_message.
  assert (Hfail : forall e : exn,
            (Throw e = Return tt <-> 0%nat = 1%nat) /\
            (@Throw unit e <> Return tt <-> @nil value = [])).
  { intros e. split; split; try discriminate; reflexivity. }
  destruct (IndexJs.jsonString rt message) as [text | e].
  - destruct (JSON_parse rt text) as [parsed|]; simpl.
    + split; [reflexivity|]. split; [reflexivity|]. split.
      * split; reflexivity.
      * split; [intros H; destruct (H eq_refl) | discriminate].
    + split; [reflexivity|]. split; [reflexivity|]. apply Hfail.
  - simpl. split; [reflexivity|]. split; [reflexivity|]. apply Hfail.
Qed.

(** ** The republish handler and the message handler together *)

(** X15: what a republish puts on the broker, and what the relay's own
    message handler makes of it when the broker hands it back.  A
    string payload is published as it is, any other payload as
    [JSON.stringify] gives it.  When the published text comes back as
    bytes that decode to it and are not gzip-framed, the message handler
    broadcasts an uncompressed event whose [raw] is that text if the
    text parses, and throws a [SyntaxError] if it does not: the
    republish handler accepts strings that are not JSON, the message
    handler does not. *)
Theorem republished_message_comes_back (rt : runtime)
  (publish : value -> string -> publish_result) (c : clock)
  (arg topic payload : value) (incoming : string) (bytes : list byte) :
  if_truthy (field arg "topic") = Some topic ->
  if_truthy (field arg "payload") = Some payload ->
  toString_utf8 rt bytes = IndexJs.wire_message rt payload ->
  IndexJs.isGzip bytes = false ->
  let message := IndexJs.wire_message rt payload in
  publishes (fst (IndexJs.on_republish rt publish arg)) = [(topic, message)] /\
  (forall s, payload = JString s -> message = s) /\
  ((forall s, payload <> JString s) -> message = JSON_stringify rt payload) /\
  (forall parsed,
     JSON_parse rt message = Some parsed ->
     broadcasts (fst (IndexJs.on_message rt c incoming bytes))
     = [IndexJs.mqtt_event c incoming bytes message parsed] /\
     field (IndexJs.mqtt_event c incoming bytes message parsed) "isCompressed"
     = Some (JBool false)) /\
  (JSON_parse rt message = None ->
   IndexJs.on_message rt c incoming bytes = ([], Throw SyntaxError)).
Proof.
  intros Ht Hp Hbytes Hplain. cbv zeta.
  assert (Htext : IndexJs.jsonString rt bytes
                  = Return (IndexJs.wire_message rt payload)).
  { unfold IndexJs.jsonString. rewrite Hplain, Hbytes. reflexivity. }
  split; [|split; [|split; [|split]]].
  - rewrite (on_republish_forwards rt publish arg topic payload Ht Hp). cbv zeta.
    destruct (publish topic (IndexJs.wire_message rt payload)); reflexivity.
  - intros s ->. reflexivity.
  - intros Hnot. destruct payload; try reflexivity. destruct (Hnot s). reflexivity.
  - intros parsed Hparse.
    rewrite (on_message_decoded rt c incoming bytes _ parsed Htext Hparse).
    split; [reflexivity|]. simpl. rewrite Hplain. reflexivity.
  - intros Hparse. unfold IndexJs.on_message. rewrite Htext, Hparse. reflexivity.
Qed.

Lemma republished_message_comes_back_witness :
  let ask := JObject [("topic", JString "orders/42"); ("payload", JString Demo.text42)] in
  let junk := JObject [("topic", JString "orders/42"); ("payload", JString "{bad")] in
  publishes (fst (IndexJs.on_republish Demo.runtime Demo.accepting ask))
  = [(JString "orders/42", Demo.text42)] /\
  broadcasts (fst (IndexJs.on_message Demo.runtime Demo.clock "orders/42" Demo.text42_bytes))
  = [IndexJs.mqtt_event Demo.clock "orders/42" Demo.text42_bytes Demo.text42 Demo.ticket42] /\
  publishes (fst (IndexJs.on_republish Demo.runtime Demo.accepting junk))
  = [(JString "orders/42", "{bad")] /\
  IndexJs.on_message Demo.runtime Demo.clock "orders/42" Demo.malformed_bytes
  = ([], Throw SyntaxError).
Proof.
  cbv zeta.
  destruct (republished_message_comes_back Demo.runtime Demo.accepting Demo.clock
              (JObject [("topic", JString "orders/42"); ("payload", JString Demo.text42)])
              (JString "orders/42") (JString Demo.text42) "orders/42" Demo.text42_bytes)
    as (Hpub & _ & _ & Hback & _); try reflexivity.
  destruct (republished_message_comes_back Demo.runtime Demo.accepting Demo.clock
              (JObject [("topic", JString "orders/42"); ("payload", JString "{bad")])
              (JString "orders/42") (JString "{bad") "orders/42" Demo.malformed_bytes)
    as (Hpub' & _ & _ & _ & Hthrow); try reflexivity.
  split; [exact Hpub|]. split; [apply (Hback Demo.ticket42); reflexivity|].
  split; [exact Hpub'|]. apply Hthrow. reflexivity.
Defined.



Lemma republish_returns_after_one_answer (rt : runtime)
  (publish : value -> string -> publish_result) (arg : value) :
  arg <> JNull ->
  snd (IndexJs.on_republish rt publish arg) = Return tt /\
  List.length (replies (fst (IndexJs.on_republish rt publish arg))) = 1%nat.
Proof.
  intros Harg. rewrite on_republish_body by exact Harg.
  destruct (if_truthy (field arg "topic")) as [topic|];
    [destruct (if_truthy (field arg "payload")) as [payload|]|];
    try (split; reflexivity).
  cbv zeta. destruct (publish topic (IndexJs.wire_message rt payload));
    split; reflexivity.
Qed.

(** X16: the republish handler throws on exactly two calls: the one
    with no argument and the one with [null], on which destructuring
    fails before the [try] is entered, so that nothing is answered and
    nothing is published; on every other call it returns after one
    answer. *)
Theorem republish_throws_only_on_null (rt : runtime)
  (publish : value -> string -> publish_result) (arg : option value) :
  let run := IndexJs.on_republish_call rt publish arg in
  (arg = None \/ arg = Some JNull <-> snd run = Throw TypeError) /\
  (arg = None \/ arg = Some JNull -> fst run = []) /\
  ((exists sent, arg = Some sent /\ sent <> JNull)
   <-> snd run = Return tt /\ List.length (replies (fst run)) = 1%nat).
Proof.
  cbv zeta. destruct arg as [sent|]; cbn [IndexJs.on_republish_call].
  - assert (Hdec : sent = JNull \/ sent <> JNull)
      by (destruct sent; [left; reflexivity | right; discriminate ..]).
    destruct Hdec as [-> | Hnn].
    + simpl. split; [split; [reflexivity | right; reflexivity]|].
      split; [reflexivity|].
      split; [intros (sent & [= <-] & H); destruct (H eq_refl)
             | intros [H _]; discriminate].
    + destruct (republish_returns_after_one_answer rt publish sent Hnn) as (Hret & Hone).
      split; [|split].
      * split; [intros [E | [= E]]; [discriminate | destruct (Hnn E)]
               | rewrite Hret; discriminate].
      * intros [E | [= E]]; [discriminate | destruct (Hnn E)].
      * split; [intros _; split; assumption | intros _; exists sent; split; trivial].
  - split; [split; [reflexivity | left; reflexivity]|].
    split; [reflexivity|].
    split; [intros (sent & E & _); discriminate | intros [H _]; discriminate].
Qed.

(** ** The static file server *)

Import Http.

(** X17: the request listener of [index.js] answers every request with
    one head and one body, and only ever streams two files, chosen by
    the whole of [req.url]: [index.html] for [/], [ticket-utils.js] for
    [/ticket-utils.js]; every other URL gets 404 as plain text. *)
Theorem static_server_serves_two_files (url : string) :
  let answer := Http.IndexJs.request_listener url in
  (exists status content_type body, answer = [WriteHead status content_type; body]) /\
  (forall name, In (PipeFile name) answer ->
                name = "index.html" \/ name = "ticket-utils.js") /\
  (In (PipeFile "index.html") answer <-> url = "/") /\
  (In (PipeFile "ticket-utils.js") answer <-> url = "/ticket-utils.js") /\
  (answer = [WriteHead 404 "text/plain"; End_ "Not Found"]
   <-> url <> "/" /\ url <> "/ticket-utils.js").
Proof.
  cbv zeta. unfold Http.IndexJs.request_listener.
  destruct (String.eqb url "/") eqn:Eroot.
  - apply String.eqb_eq in Eroot. subst url. split; [do 3 eexists; reflexivity|].
    split; [intros name [H | [H | []]]; [discriminate | left; congruence]|].
    split; [split; [reflexivity | intros _; right; left; reflexivity]|].
    split; [split; [intros [H | [H | []]]; discriminate | discriminate]|].
    split; [discriminate | intros [H _]; destruct (H eq_refl)].
  - apply String.eqb_neq in Eroot.
    destruct (String.eqb url "/ticket-utils.js") eqn:Ejs.
    + apply String.eqb_eq in Ejs. subst url. split; [do 3 eexists; reflexivity|].
      split; [intros name [H | [H | []]]; [discriminate | right; congruence]|].
      split; [split; [intros [H | [H | []]]; discriminate | discriminate]|].
      split; [split; [reflexivity | intros _; right; left; reflexivity]|].
      split; [discriminate | intros [_ H]; destruct (H eq_refl)].
    + apply String.eqb_neq in Ejs. split; [do 3 eexists; reflexivity|].
      split; [intros name [H | [H | []]]; discriminate|].
      split; [split; [intros [H | [H | []]]; discriminate | intros E; destruct (Eroot E)]|].
      split; [split; [intros [H | [H | []]]; discriminate | intros E; destruct (Ejs E)]|].
      split; [intros _; split; assumption | reflexivity].
Qed.

(** X18: the earlier copy answers [/] only, and does so by streaming
    [index.html] into the response without writing a head; it leaves
    every other request without any response, where [index.js] answers
    every request, [/] with a head and the same file. *)
Theorem earlier_server_answers_root_only (url : string) :
  (url = "/" ->
   Http.Part000.request_listener url = [PipeFile "index.html"] /\
   Http.IndexJs.request_listener url
   = [WriteHead 200 "text/html"; PipeFile "index.html"]) /\
  (url <> "/" -> Http.Part000.request_listener url = []) /\
  (forall status content_type,
     ~ In (WriteHead status content_type) (Http.Part000.request_listener url)) /\
  Http.IndexJs.request_listener url <> [].
Proof.
  unfold Http.Part000.request_listener, Http.IndexJs.request_listener.
  destruct (String.eqb url "/") eqn:Eroot.
  - apply String.eqb_eq in Eroot. split; [|split; [|split]].
    + intros _. split; reflexivity.
    + intros H. destruct (H Eroot).
    + intros status content_type [H | []]. discriminate.
    + discriminate.
  - apply String.eqb_neq in Eroot. split; [|split; [|split]].
    + intros E. destruct (Eroot E).
    + reflexivity.
    + intros status content_type [].
    + destruct (String.eqb url "/ticket-utils.js"); discriminate.
Qed.

Lemma earlier_server_answers_root_only_witness :
  Http.Part000.request_listener "/" = [PipeFile "index.html"] /\
  Http.IndexJs.request_listener "/"
  = [WriteHead 200 "text/html"; PipeFile "index.html"] /\
  Http.Part000.request_listener "/ticket-utils.js" = [].
Proof.
  destruct (earlier_server_answers_root_only "/") as (Hroot & _).
  destruct (earlier_server_answers_root_only "/ticket-utils.js") as (_ & Hother & _).
  destruct (Hroot eq_refl) as (Hold & Hnew).
  split; [exact Hold|]. split; [exact Hnew|]. apply Hother. discriminate.
Defined.

(** ** Loading the certificates and connecting *)

Import Startup.

(** X19: the relay connects to the broker only when all three
    certificate files could be read, and then once, with exactly the
    bytes read, over [mqtts] on port 8883, with [rejectUnauthorized]
    true and neither user name nor password; when a file cannot be
    read, the files after it are not read, nothing is connected, and
    the process exits with code 1. *)
Theorem connects_only_with_all_certificates (s : surroundings) :
  let trace := load_and_connect s in
  (if (readable s ca_path && readable s cert_path && readable s key_path)%bool
   then exits trace = [] /\ List.length (connects trace) = 1%nat /\
        reads trace = [resolve s ca_path; resolve s cert_path; resolve s key_path]
   else connects trace = [] /\ exits trace = [1]) /\
  (forall o, In o (connects trace) ->
     readFileSync s (resolve s ca_path) = inr (ca o) /\
     readFileSync s (resolve s cert_path) = inr (cert o) /\
     readFileSync s (resolve s key_path) = inr (key o) /\
     rejectUnauthorized o = true /\ protocol o = "mqtts" /\ port o = 8883 /\
     username o = None /\ password o = None /\ host o = MQTT_HOST s) /\
  (readable s ca_path = false -> reads trace = [resolve s ca_path]) /\
  (readable s ca_path = true -> readable s cert_path = false ->
   reads trace = [resolve s ca_path; resolve s cert_path]).
Proof.
  cbv zeta. unfold load_and_connect, readable.
  destruct (readFileSync s (resolve s ca_path)) as [m1 | ca0]; simpl.
  { split; [split; reflexivity|]. split; [intros o []|].
    split; [reflexivity | discriminate]. }
  destruct (readFileSync s (resolve s cert_path)) as [m2 | cert0]; simpl.
  { split; [split; reflexivity|]. split; [intros o []|].
    split; [discriminate | reflexivity]. }
  destruct (readFileSync s (resolve s key_path)) as [m3 | key0]; simpl.
  { split; [split; reflexivity|]. split; [intros o []|].
    split; discriminate. }
  split; [repeat split|]. split; [|split; discriminate].
  intros o [<- | []]. repeat split.
Qed.
